(** * spice2json: the schema-to-document mappers, embedded and verified

    The repository maps a compiled SpiceDB schema (protobuf messages of
    [corev1]) to a JSON document model.  It holds two generations of the
    mappers, both in package [main]:

    - [main.go]: the entry point, [WriteSchemaTo], and mappers that build
      the permission rewrite tree ([UserSet]) but copy doc comments
      verbatim and emit caveat parameters as a list of type names;
    - [mapSchema.go]: mappers that strip comment decoration with
      [commentRegex] and emit caveat parameters as a map, but build no
      rewrite tree.

    Each file is embedded in a module of its own ([Main], [MapSchema]);
    the Go runtime and library functions they call, and the protobuf
    messages they read, come first.

    Conventions of the embedding.
    - A Go [string] is a byte sequence: Rocq's [string] (8-bit characters).
      A [[]byte] is a [list byte].
    - A pointer to a message that may be nil is an [option]; the elements
      of a repeated field, the values of a map field and the member of a
      populated oneof are never nil (this is what protobuf decoding
      yields), so they are plain values.
    - A nil slice and an empty slice are both the empty [list].
    - A run-time panic is the outcome [Panic]; a returned Go [error] is
      the outcome [Err]. *)

From Stdlib Require Import Strings.String Strings.Ascii Strings.Byte List Arith Lia Bool.
From Stdlib Require Import Sorting.Permutation.
From stdpp Require Import gmap strings fin_maps.
Import ListNotations.

Local Open Scope list_scope.

(** ** Outcomes of a Go call *)

Inductive panic : Type :=
| nilPointerDereference
| sliceBoundsOutOfRange
| indexOutOfRange.

(** The values of Go's [error] interface that this program creates, by
    the [fmt.Errorf] call that builds them ([%w] wraps the [cause]). *)
Inductive error : Type :=
| UnexpectedRelation (name : string)
    (* "unexpected relation %q, neither permission nor relation" *)
| FailedToExport (name : string) (cause : error)
    (* "failed to export %q: %w" *)
| UnableToSerialize (cause : error)
    (* "unable to serialize schema for export: %w" *)
| UnableToWrite (cause : error)
    (* "unable to write schema for export: %w" *)
| ExternalError (msg : string).
    (* an error of json.Marshal or of the io.Writer *)

Inductive outcome (A : Type) : Type :=
| Ok (a : A)
| Err (e : error)
| Panic (p : panic).

Arguments Ok {A} a.
Arguments Err {A} e.
Arguments Panic {A} p.

Definition bind {A B : Type} (m : outcome A) (k : A -> outcome B) : outcome B :=
  match m with
  | Ok a => k a
  | Err e => Err e
  | Panic p => Panic p
  end.

Notation "'let?' x ':=' m 'in' k" := (bind m (fun x => k))
  (at level 10, x name, m at level 100, k at level 200).

(** [*p] for a pointer [p] that may be nil. *)
Definition deref {A : Type} (p : option A) : outcome A :=
  match p with
  | Some a => Ok a
  | None => Panic nilPointerDereference
  end.

(** [b[low:]] on a byte slice: panics unless [low <= len(b)]. *)
Definition slice_from (low : nat) (b : list byte) : outcome (list byte) :=
  if low <=? length b then Ok (skipn low b) else Panic sliceBoundsOutOfRange.

(** ** Package [strings] *)

Fixpoint string_take (n : nat) (s : string) : string :=
  match n, s with
  | S n', String c s' => String c (string_take n' s')
  | _, _ => EmptyString
  end.

Fixpoint string_drop (n : nat) (s : string) : string :=
  match n, s with
  | S n', String _ s' => string_drop n' s'
  | _, _ => s
  end.

(** [strings.HasPrefix(s, prefix)]. *)
Fixpoint HasPrefix (s prefix : string) {struct prefix} : bool :=
  match prefix, s with
  | EmptyString, _ => true
  | String a prefix', String b s' => Ascii.eqb a b && HasPrefix s' prefix'
  | String _ _, EmptyString => false
  end.

(** [strings.Index(s, sep)]: the byte offset of the first occurrence of
    [sep] in [s]; [None] stands for Go's [-1]. *)
Fixpoint Index (s sep : string) : option nat :=
  if HasPrefix s sep then Some 0
  else match s with
       | EmptyString => None
       | String _ s' => option_map S (Index s' sep)
       end.

(** The loop of [strings.genSplit] with [sepSave = 0]: at most [n] cuts,
    each at the first occurrence of [sep] in what is left. *)
Fixpoint genSplit_loop (n : nat) (s sep : string) : list string :=
  match n with
  | 0 => [s]
  | S n' =>
      match Index s sep with
      | None => [s]
      | Some m =>
          string_take m s
            :: genSplit_loop n' (string_drop (m + String.length sep) s) sep
      end
  end.

(** [strings.SplitN(s, sep, n)] for [n >= 0] and a non-empty [sep] (the
    program's only call passes ["/"] and [2]): [n = 0] gives nil;
    otherwise [n] is capped at [len(s) + 1] and the result has at most
    [n] pieces, the last one the unsplit remainder. *)
Definition SplitN (s sep : string) (n : nat) : list string :=
  match n with
  | 0 => []
  | S _ => genSplit_loop (Nat.min n (String.length s + 1) - 1) s sep
  end.

(** White space "as defined by Unicode" ([unicode.IsSpace]): the runes
    U+0009..U+000D, U+0020, U+0085, U+00A0, U+1680, U+2000..U+200A,
    U+2028, U+2029, U+202F, U+205F and U+3000, here by their UTF-8
    encodings.  UTF-8 decoding accepts the shortest encoding only, so a
    string starts (ends) with a white-space rune exactly when it starts
    (ends) with one of these byte sequences. *)
Definition whiteSpaceUTF8 : list (list ascii) :=
  List.map (List.map ascii_of_nat)
    [ [0x09]; [0x0A]; [0x0B]; [0x0C]; [0x0D]; [0x20];
      [0xC2; 0x85]; [0xC2; 0xA0];
      [0xE1; 0x9A; 0x80];
      [0xE2; 0x80; 0x80]; [0xE2; 0x80; 0x81]; [0xE2; 0x80; 0x82];
      [0xE2; 0x80; 0x83]; [0xE2; 0x80; 0x84]; [0xE2; 0x80; 0x85];
      [0xE2; 0x80; 0x86]; [0xE2; 0x80; 0x87]; [0xE2; 0x80; 0x88];
      [0xE2; 0x80; 0x89]; [0xE2; 0x80; 0x8A];
      [0xE2; 0x80; 0xA8]; [0xE2; 0x80; 0xA9]; [0xE2; 0x80; 0xAF];
      [0xE2; 0x81; 0x9F];
      [0xE3; 0x80; 0x80] ].

Fixpoint isPrefix (p l : list ascii) {struct p} : bool :=
  match p, l with
  | [], _ => true
  | a :: p', b :: l' => Ascii.eqb a b && isPrefix p' l'
  | _ :: _, [] => false
  end.

(** The width in bytes of the white-space rune that [l] starts with when
    it is read in the given direction; [0] when it starts with none.
    Read backwards, the encodings are reversed. *)
Definition spaceWidth (backwards : bool) (l : list ascii) : nat :=
  match List.find (fun enc => isPrefix (if backwards then rev enc else enc) l)
                  whiteSpaceUTF8 with
  | Some enc => length enc
  | None => 0
  end.

(** Drops white-space runes from the front of [l]; [skip] counts the
    bytes still to drop of the rune being removed. *)
Fixpoint trimFront (backwards : bool) (skip : nat) (l : list ascii) : list ascii :=
  match l with
  | [] => []
  | c :: l' =>
      match skip with
      | S k => trimFront backwards k l'
      | 0 =>
          match spaceWidth backwards l with
          | S k => trimFront backwards k l'
          | 0 => l
          end
      end
  end.

Definition TrimLeftSpace (l : list ascii) : list ascii := trimFront false 0 l.
Definition TrimRightSpace (l : list ascii) : list ascii :=
  rev (trimFront true 0 (rev l)).

(** [strings.TrimSpace(s)]: all leading and trailing white space
    removed. *)
Definition TrimSpace (s : string) : string :=
  string_of_list_ascii
    (TrimRightSpace (TrimLeftSpace (list_ascii_of_string s))).

(** ** Package [regexp] *)

(** The syntax that [commentRegex] uses: literals, concatenation,
    alternation and the greedy [?]. *)
Inductive regex : Type :=
| Lit (c : ascii)
| Cat (r1 r2 : regex)
| Alt (r1 r2 : regex)
| Opt (r : regex).

(** Leftmost-first ("Perl-like") matching of [r] at the start of [s], in
    continuation-passing style: [k] receives what is left of [s] after
    [r]; the first success in preference order wins.  [Alt] prefers its
    left branch, [Opt] prefers to take its operand. *)
Fixpoint matchK (r : regex) (s : string) (k : string -> option string)
  : option string :=
  match r with
  | Lit c =>
      match s with
      | String c' s' => if Ascii.eqb c c' then k s' else None
      | EmptyString => None
      end
  | Cat r1 r2 => matchK r1 s (fun s' => matchK r2 s' k)
  | Alt r1 r2 =>
      match matchK r1 s k with
      | Some rest => Some rest
      | None => matchK r2 s k
      end
  | Opt r1 =>
      match matchK r1 s k with
      | Some rest => Some rest
      | None => k s
      end
  end.

(** The number of bytes of the preferred match of [r] at the start of
    [s], if there is one. *)
Definition matchWidth (r : regex) (s : string) : option nat :=
  match matchK r s Some with
  | Some rest => Some (String.length s - String.length rest)
  | None => None
  end.

(** The scan of [Regexp.ReplaceAllString]: [skip] counts the bytes still
    to drop of the match being replaced.  A match is looked for at every
    offset that no earlier match covers; bytes outside matches are
    copied. *)
Fixpoint replaceAll (re : regex) (repl : string) (skip : nat) (src : string)
  : string :=
  match src with
  | EmptyString => EmptyString
  | String c src' =>
      match skip with
      | S k => replaceAll re repl k src'
      | 0 =>
          match matchWidth re src with
          | Some (S k) => repl +:+ replaceAll re repl k src'
          | _ => String c (replaceAll re repl 0 src')
          end
      end
  end.

(** [re.ReplaceAllString(src, repl)] for a [repl] without [$] and an
    [re] that matches no empty string (the program's only call has both:
    [commentRegex] and the empty string). *)
Definition ReplaceAllString (re : regex) (src repl : string) : string :=
  replaceAll re repl 0 src.

(** ** The protobuf messages of the compiled schema ([corev1], [implv1]) *)

Module corev1.

(** [anypb.Any]. *)
Record Any : Type := Build_Any {
  TypeUrl : string;
  Value : list byte
}.

Record Metadata : Type := Build_Metadata {
  MetadataMessage : list Any
}.

(** The getter [GetMetadataMessage], which accepts a nil receiver. *)
Definition GetMetadataMessage (metaData : option Metadata) : list Any :=
  match metaData with
  | Some m => MetadataMessage m
  | None => []
  end.

Record ComputedUserset : Type := Build_ComputedUserset {
  ComputedUserset_Relation : string
}.

Record TupleToUserset_Tupleset : Type := Build_TupleToUserset_Tupleset {
  Tupleset_Relation : string
}.

Record TupleToUserset : Type := Build_TupleToUserset {
  TupleToUserset_Tupleset_ : option TupleToUserset_Tupleset;
  TupleToUserset_ComputedUserset : option ComputedUserset
}.

(** [UsersetRewrite] with its oneof [RewriteOperation], [SetOperation],
    and [SetOperation_Child] with its oneof [ChildType].  [_unset] is a
    oneof with no member populated; [Child_XThis] and [Child_XNil] are
    the members of [ChildType] that the mappers have no case for. *)
Inductive UsersetRewrite : Type :=
| Rewrite_unset
| Rewrite_Union (union : SetOperation)
| Rewrite_Intersection (intersection : SetOperation)
| Rewrite_Exclusion (exclusion : SetOperation)
with SetOperation : Type :=
| Build_SetOperation (Child : list SetOperation_Child)
with SetOperation_Child : Type :=
| Child_unset
| Child_XThis
| Child_ComputedUserset (computed : ComputedUserset)
| Child_TupleToUserset (tuple : TupleToUserset)
| Child_UsersetRewrite (set : UsersetRewrite)
| Child_XNil.

(** The nil-safe getters of the two oneofs. *)
Definition GetUnion (userset : option UsersetRewrite) : option SetOperation :=
  match userset with Some (Rewrite_Union s) => Some s | _ => None end.
Definition GetIntersection (userset : option UsersetRewrite) : option SetOperation :=
  match userset with Some (Rewrite_Intersection s) => Some s | _ => None end.
Definition GetExclusion (userset : option UsersetRewrite) : option SetOperation :=
  match userset with Some (Rewrite_Exclusion s) => Some s | _ => None end.
Definition GetChild (s : SetOperation) : list SetOperation_Child :=
  match s with Build_SetOperation c => c end.
Definition GetComputedUserset (child : SetOperation_Child) : option ComputedUserset :=
  match child with Child_ComputedUserset c => Some c | _ => None end.
Definition GetTupleToUserset (child : SetOperation_Child) : option TupleToUserset :=
  match child with Child_TupleToUserset t => Some t | _ => None end.
Definition GetUsersetRewrite (child : SetOperation_Child) : option UsersetRewrite :=
  match child with Child_UsersetRewrite r => Some r | _ => None end.

Record AllowedCaveat : Type := Build_AllowedCaveat {
  CaveatName : string
}.

(** The oneof [RelationOrWildcard] of [AllowedRelation]. *)
Inductive isAllowedRelation_RelationOrWildcard : Type :=
| RelationOrWildcard_unset
| AllowedRelation_Relation (Relation : string)
| AllowedRelation_PublicWildcard.

Record AllowedRelation : Type := Build_AllowedRelation {
  AllowedRelation_Namespace : string;
  RelationOrWildcard : isAllowedRelation_RelationOrWildcard;
  RequiredCaveat : option AllowedCaveat
}.

Record TypeInformation : Type := Build_TypeInformation {
  AllowedDirectRelations : list AllowedRelation
}.

(** [corev1.Relation]. *)
Record Relation : Type := Build_Relation {
  Relation_Name : string;
  Relation_UsersetRewrite : option UsersetRewrite;
  Relation_TypeInformation : option TypeInformation;
  Relation_Metadata : option Metadata
}.

Record NamespaceDefinition : Type := Build_NamespaceDefinition {
  NamespaceDefinition_Name : string;
  NamespaceDefinition_Relation : list Relation;
  NamespaceDefinition_Metadata : option Metadata
}.

Record CaveatTypeReference : Type := Build_CaveatTypeReference {
  TypeName : string
}.

Record CaveatDefinition : Type := Build_CaveatDefinition {
  CaveatDefinition_Name : string;
  ParameterTypes : gmap string CaveatTypeReference;
  CaveatDefinition_Metadata : option Metadata
}.

(** [compiler.CompiledSchema]. *)
Record CompiledSchema : Type := Build_CompiledSchema {
  ObjectDefinitions : list NamespaceDefinition;
  CaveatDefinitions : list CaveatDefinition
}.

End corev1.

Module implv1.

(** [implv1.RelationMetadata_RelationKind]. *)
Inductive RelationMetadata_RelationKind : Type :=
| RelationMetadata_UNKNOWN_KIND
| RelationMetadata_RELATION
| RelationMetadata_PERMISSION.

Definition RelationKind_eqb (a b : RelationMetadata_RelationKind) : bool :=
  match a, b with
  | RelationMetadata_UNKNOWN_KIND, RelationMetadata_UNKNOWN_KIND
  | RelationMetadata_RELATION, RelationMetadata_RELATION
  | RelationMetadata_PERMISSION, RelationMetadata_PERMISSION => true
  | _, _ => false
  end.

End implv1.

Definition DocCommentTypeUrl : string := "type.googleapis.com/impl.v1.DocComment".

(** The line feed, Go's ["\n"]. *)
Definition LF : string := String "010" EmptyString.

(** The [if len(splits) == 2 ... else ...] of [mapDefinition], which the
    two files share word for word: the namespace and the name.  Indexing
    an empty [splits] would panic. *)
Definition namespaceAndName (splits : list string) : outcome (string * string) :=
  match splits with
  | [s0; s1] => Ok (s0, s1)
  | s0 :: _ => Ok (EmptyString, s0)
  | [] => Panic indexOutOfRange
  end.

(** ** [main.go] *)

Module Main.

(** *** The document model *)

Record RelationType : Type := Build_RelationType {
  RelationType_Type : string;
  RelationType_Relation : string;
  RelationType_Caveat : string
}.

Record Relation : Type := Build_Relation {
  Relation_Name : string;
  Relation_Types : list RelationType;
  Relation_Comment : string
}.

(** [Children] is a [[]*UserSet]: an entry may be the nil pointer. *)
#[warning="-register-all"]
Inductive UserSet : Type := Build_UserSet {
  UserSet_Operation : string;
  UserSet_Relation : string;
  UserSet_Permission : string;
  UserSet_Children : list (option UserSet)
}.

Record Permission : Type := Build_Permission {
  Permission_Name : string;
  Permission_UserSet : option UserSet;
  Permission_Comment : string
}.

(** The struct [Definition]. *)
Record Definition_ : Type := Build_Definition {
  Definition_Name : string;
  Definition_Namespace : string;
  Definition_Relations : list Relation;
  Definition_Permissions : list Permission;
  Definition_Comment : string
}.

Record Caveat : Type := Build_Caveat {
  Caveat_Name : string;
  Caveat_Parameters : list string;
  Caveat_Comment : string
}.

Record Schema : Type := Build_Schema {
  Schema_Definitions : list Definition_;
  Schema_Caveats : list Caveat
}.

(** *** The mappers *)

Fixpoint getMetadataComments_loop (ds : list corev1.Any) (comment : string)
  : outcome string :=
  match ds with
  | [] => Ok comment
  | d :: ds' =>
      if String.eqb (corev1.TypeUrl d) DocCommentTypeUrl then
        (let? v := slice_from 2 (corev1.Value d) in
         getMetadataComments_loop ds' (comment +:+ string_of_list_byte v +:+ LF))
      else getMetadataComments_loop ds' comment
  end.

Definition getMetadataComments (metaData : option corev1.Metadata) : outcome string :=
  let? comment := getMetadataComments_loop (corev1.GetMetadataMessage metaData) EmptyString in
  Ok (TrimSpace comment).

Definition mapRelationType (relationType : corev1.AllowedRelation) : RelationType :=
  let relationName :=
    match corev1.RelationOrWildcard relationType with
    | corev1.AllowedRelation_Relation Relation =>
        if String.eqb Relation "..." then EmptyString else Relation
    | _ => "*"
    end in
  let caveatName :=
    match corev1.RequiredCaveat relationType with
    | Some caveat => corev1.CaveatName caveat
    | None => EmptyString
    end in
  {| RelationType_Type := corev1.AllowedRelation_Namespace relationType;
     RelationType_Relation := relationName;
     RelationType_Caveat := caveatName |}.

Fixpoint mapRelation_loop (ts : list corev1.AllowedRelation) (types : list RelationType)
  : list RelationType :=
  match ts with
  | [] => types
  | t :: ts' => mapRelation_loop ts' (types ++ [mapRelationType t])
  end.

Definition mapRelation (relation : corev1.Relation) : outcome Relation :=
  let? typeInformation := deref (corev1.Relation_TypeInformation relation) in
  let types := mapRelation_loop (corev1.AllowedDirectRelations typeInformation) [] in
  let? comment := getMetadataComments (corev1.Relation_Metadata relation) in
  Ok {| Relation_Name := corev1.Relation_Name relation;
        Relation_Comment := comment;
        Relation_Types := types |}.

(** The loop of [mapUserSetChild], over the function it calls for a
    nested rewrite.  [ChildType] is a oneof, so at most one of the three
    getters of the source is non-nil and its three [if]s are one match. *)
Definition mapUserSetChild_loop
    (mapUserSet : corev1.UsersetRewrite -> outcome (option UserSet))
  : list corev1.SetOperation_Child -> list (option UserSet)
    -> outcome (list (option UserSet)) :=
  fix loop children sets :=
    match children with
    | [] => Ok sets
    | child :: rest =>
        match child with
        | corev1.Child_ComputedUserset computed =>
            loop rest
              (sets ++ [Some {| UserSet_Operation := EmptyString;
                                UserSet_Relation := corev1.ComputedUserset_Relation computed;
                                UserSet_Permission := EmptyString;
                                UserSet_Children := [] |}])
        | corev1.Child_TupleToUserset tuple =>
            let? tupleset := deref (corev1.TupleToUserset_Tupleset_ tuple) in
            let? computedUserset := deref (corev1.TupleToUserset_ComputedUserset tuple) in
            loop rest
              (sets ++ [Some {| UserSet_Operation := EmptyString;
                                UserSet_Relation := corev1.Tupleset_Relation tupleset;
                                UserSet_Permission := corev1.ComputedUserset_Relation computedUserset;
                                UserSet_Children := [] |}])
        | corev1.Child_UsersetRewrite set =>
            let? mapped := mapUserSet set in
            loop rest (sets ++ [mapped])
        | _ => loop rest sets
        end
    end.

(** The body of that loop as the source writes it: three [if]s, one
    after the other, over the three getters. *)
Definition mapUserSetChild_body
    (mapUserSet : corev1.UsersetRewrite -> outcome (option UserSet))
    (child : corev1.SetOperation_Child) (sets : list (option UserSet))
  : outcome (list (option UserSet)) :=
  let sets :=
    match corev1.GetComputedUserset child with
    | Some computed =>
        sets ++ [Some {| UserSet_Operation := EmptyString;
                         UserSet_Relation := corev1.ComputedUserset_Relation computed;
                         UserSet_Permission := EmptyString;
                         UserSet_Children := [] |}]
    | None => sets
    end in
  let? sets :=
    match corev1.GetTupleToUserset child with
    | Some tuple =>
        let? tupleset := deref (corev1.TupleToUserset_Tupleset_ tuple) in
        let? computedUserset := deref (corev1.TupleToUserset_ComputedUserset tuple) in
        Ok (sets ++ [Some {| UserSet_Operation := EmptyString;
                             UserSet_Relation := corev1.Tupleset_Relation tupleset;
                             UserSet_Permission := corev1.ComputedUserset_Relation computedUserset;
                             UserSet_Children := [] |}])
    | None => Ok sets
    end in
  match corev1.GetUsersetRewrite child with
  | Some set =>
      let? mapped := mapUserSet set in
      Ok (sets ++ [mapped])
  | None => Ok sets
  end.

(** [mapUserSet] on a non-nil [*UsersetRewrite]. *)
Fixpoint mapUserSet_nonnil (userset : corev1.UsersetRewrite) : outcome (option UserSet) :=
  match userset with
  | corev1.Rewrite_Union union =>
      let? children := mapUserSetChild_loop mapUserSet_nonnil (corev1.GetChild union) [] in
      Ok (Some {| UserSet_Operation := "union";
                  UserSet_Relation := EmptyString;
                  UserSet_Permission := EmptyString;
                  UserSet_Children := children |})
  | corev1.Rewrite_Intersection intersection =>
      let? children := mapUserSetChild_loop mapUserSet_nonnil (corev1.GetChild intersection) [] in
      Ok (Some {| UserSet_Operation := "intersection";
                  UserSet_Relation := EmptyString;
                  UserSet_Permission := EmptyString;
                  UserSet_Children := children |})
  | corev1.Rewrite_Exclusion exclusion =>
      let? children := mapUserSetChild_loop mapUserSet_nonnil (corev1.GetChild exclusion) [] in
      Ok (Some {| UserSet_Operation := "exclusion";
                  UserSet_Relation := EmptyString;
                  UserSet_Permission := EmptyString;
                  UserSet_Children := children |})
  | corev1.Rewrite_unset => Ok None
  end.

(** [mapUserSet]: on the nil pointer every getter returns nil, and so
    does the function. *)
Definition mapUserSet (userset : option corev1.UsersetRewrite) : outcome (option UserSet) :=
  match userset with
  | Some u => mapUserSet_nonnil u
  | None => Ok None
  end.

Definition mapUserSetChild (children : list corev1.SetOperation_Child)
  : outcome (list (option UserSet)) :=
  mapUserSetChild_loop (fun set => mapUserSet (Some set)) children [].

(** The body of [mapUserSet] as the source writes it: three [if]s, one
    after the other, over the three getters, each returning at once. *)
Definition mapUserSet_body
    (mapUserSetChild : list corev1.SetOperation_Child -> outcome (list (option UserSet)))
    (userset : option corev1.UsersetRewrite) : outcome (option UserSet) :=
  match corev1.GetUnion userset with
  | Some union =>
      let? children := mapUserSetChild (corev1.GetChild union) in
      Ok (Some {| UserSet_Operation := "union";
                  UserSet_Relation := EmptyString;
                  UserSet_Permission := EmptyString;
                  UserSet_Children := children |})
  | None =>
      match corev1.GetIntersection userset with
      | Some intersection =>
          let? children := mapUserSetChild (corev1.GetChild intersection) in
          Ok (Some {| UserSet_Operation := "intersection";
                      UserSet_Relation := EmptyString;
                      UserSet_Permission := EmptyString;
                      UserSet_Children := children |})
      | None =>
          match corev1.GetExclusion userset with
          | Some exclusion =>
              let? children := mapUserSetChild (corev1.GetChild exclusion) in
              Ok (Some {| UserSet_Operation := "exclusion";
                          UserSet_Relation := EmptyString;
                          UserSet_Permission := EmptyString;
                          UserSet_Children := children |})
          | None => Ok None
          end
      end
  end.

Definition mapPermission (relation : corev1.Relation) : outcome Permission :=
  let? userSet := mapUserSet (corev1.Relation_UsersetRewrite relation) in
  let? comment := getMetadataComments (corev1.Relation_Metadata relation) in
  Ok {| Permission_Name := corev1.Relation_Name relation;
        Permission_UserSet := userSet;
        Permission_Comment := comment |}.

(** The two packages that [main.go] calls and the repository does not
    hold: [ns.GetRelationKind] of SpiceDB, [json.Marshal], and the
    [io.Writer] that receives the document ([W] is its state). *)
Section Collaborators.

Variable GetRelationKind : corev1.Relation -> implv1.RelationMetadata_RelationKind.

(** The first loop of [mapDefinition]; [Err] is its early [return nil, err]. *)
Fixpoint mapDefinition_loop (rs : list corev1.Relation)
    (relations : list Relation) (permissions : list Permission)
  : outcome (list Relation * list Permission) :=
  match rs with
  | [] => Ok (relations, permissions)
  | r :: rs' =>
      let kind := GetRelationKind r in
      if implv1.RelationKind_eqb kind implv1.RelationMetadata_PERMISSION then
        (let? p := mapPermission r in
         mapDefinition_loop rs' relations (permissions ++ [p]))
      else if implv1.RelationKind_eqb kind implv1.RelationMetadata_RELATION then
        (let? rel := mapRelation r in
         mapDefinition_loop rs' (relations ++ [rel]) permissions)
      else Err (UnexpectedRelation (corev1.Relation_Name r))
  end.

Definition mapDefinition (def : corev1.NamespaceDefinition) : outcome Definition_ :=
  let? groups := mapDefinition_loop (corev1.NamespaceDefinition_Relation def) [] [] in
  let splits := SplitN (corev1.NamespaceDefinition_Name def) "/" 2 in
  let? names := namespaceAndName splits in
  let? comment := getMetadataComments (corev1.NamespaceDefinition_Metadata def) in
  Ok {| Definition_Name := snd names;
        Definition_Namespace := fst names;
        Definition_Relations := fst groups;
        Definition_Permissions := snd groups;
        Definition_Comment := comment |}.

(** [mapCaveat]; [order] is the sequence in which [range] yields the
    entries of the map [ParameterTypes], which Go leaves unspecified. *)
Definition mapCaveat (caveat : corev1.CaveatDefinition)
    (order : list (string * corev1.CaveatTypeReference)) : outcome Caveat :=
  let parameters :=
    fold_left (fun parameters kt => parameters ++ [corev1.TypeName (snd kt)]) order [] in
  let? comment := getMetadataComments (corev1.CaveatDefinition_Metadata caveat) in
  Ok {| Caveat_Name := corev1.CaveatDefinition_Name caveat;
        Caveat_Parameters := parameters;
        Caveat_Comment := comment |}.

Variable rangeOrder :
  gmap string corev1.CaveatTypeReference -> list (string * corev1.CaveatTypeReference).
Variable json_Marshal : Schema -> string + error.
Variable W : Type.
Variable Write : W -> string -> W * option error.

Fixpoint WriteSchemaTo_definitions (defs : list corev1.NamespaceDefinition)
    (definitions : list Definition_) : outcome (list Definition_) :=
  match defs with
  | [] => Ok definitions
  | def :: defs' =>
      match mapDefinition def with
      | Ok o => WriteSchemaTo_definitions defs' (definitions ++ [o])
      | Err err => Err (FailedToExport (corev1.NamespaceDefinition_Name def) err)
      | Panic p => Panic p
      end
  end.

Fixpoint WriteSchemaTo_caveats (cs : list corev1.CaveatDefinition)
    (caveats : list Caveat) : outcome (list Caveat) :=
  match cs with
  | [] => Ok caveats
  | caveat :: cs' =>
      let? o := mapCaveat caveat (rangeOrder (corev1.ParameterTypes caveat)) in
      WriteSchemaTo_caveats cs' (caveats ++ [o])
  end.

(** [WriteSchemaTo]: the state of the writer afterwards, and [Ok tt] for
    a nil error. *)
Definition WriteSchemaTo (schema : corev1.CompiledSchema) (w : W) : W * outcome unit :=
  match WriteSchemaTo_definitions (corev1.ObjectDefinitions schema) [] with
  | Ok definitions =>
      match WriteSchemaTo_caveats (corev1.CaveatDefinitions schema) [] with
      | Ok caveats =>
          match json_Marshal {| Schema_Definitions := definitions;
                                Schema_Caveats := caveats |} with
          | inl data =>
              match Write w data with
              | (w', Some err) => (w', Err (UnableToWrite err))
              | (w', None) => (w', Ok tt)
              end
          | inr err => (w, Err (UnableToSerialize err))
          end
      | Err e => (w, Err e)
      | Panic p => (w, Panic p)
      end
  | Err e => (w, Err e)
  | Panic p => (w, Panic p)
  end.

End Collaborators.

End Main.

(** ** [mapSchema.go] *)

Module MapSchema.

(** *** The document model *)

Record RelationType : Type := Build_RelationType {
  RelationType_Type : string;
  RelationType_Relation : string;
  RelationType_Caveat : string
}.

Record Relation : Type := Build_Relation {
  Relation_Name : string;
  Relation_Types : list RelationType;
  Relation_Comment : string
}.

Record Permission : Type := Build_Permission {
  Permission_Name : string;
  Permission_Comment : string
}.

(** The struct [Definition]. *)
Record Definition_ : Type := Build_Definition {
  Definition_Name : string;
  Definition_Namespace : string;
  Definition_Relations : list Relation;
  Definition_Permissions : list Permission;
  Definition_Comment : string
}.

Record Caveat : Type := Build_Caveat {
  Caveat_Name : string;
  Caveat_Parameters : gmap string string;
  Caveat_Comment : string
}.

Record Schema : Type := Build_Schema {
  Schema_Definitions : list Definition_;
  Schema_Caveats : list Caveat
}.

(** *** The mappers *)

(** [regexp.MustCompile("(/[*]{1,2} ?|// ?| ?[*] | ?[*]?/)")]; the
    bounded repetition [[*]{1,2}] is one star and then, greedily, a
    second one. *)
Definition commentRegex : regex :=
  let slash := Lit "/" in
  let star := Lit "*" in
  let space := Lit " " in
  Alt (Cat slash (Cat (Cat star (Opt star)) (Opt space)))
 (Alt (Cat slash (Cat slash (Opt space)))
 (Alt (Cat (Opt space) (Cat star space))
      (Cat (Opt space) (Cat (Opt star) slash)))).

Fixpoint getMetadataComments_loop (ds : list corev1.Any) (comment : string)
  : outcome string :=
  match ds with
  | [] => Ok comment
  | d :: ds' =>
      if String.eqb (corev1.TypeUrl d) DocCommentTypeUrl then
        (let? v := slice_from 2 (corev1.Value d) in
         getMetadataComments_loop ds'
           (comment
              +:+ ReplaceAllString commentRegex (string_of_list_byte v) EmptyString
              +:+ LF))
      else getMetadataComments_loop ds' comment
  end.

Definition getMetadataComments (metaData : option corev1.Metadata) : outcome string :=
  let? comment := getMetadataComments_loop (corev1.GetMetadataMessage metaData) EmptyString in
  Ok (TrimSpace comment).

Definition mapRelationType (relationType : corev1.AllowedRelation) : RelationType :=
  let relationName :=
    match corev1.RelationOrWildcard relationType with
    | corev1.AllowedRelation_Relation Relation =>
        if String.eqb Relation "..." then EmptyString else Relation
    | _ => "*"
    end in
  let caveatName :=
    match corev1.RequiredCaveat relationType with
    | Some caveat => corev1.CaveatName caveat
    | None => EmptyString
    end in
  {| RelationType_Type := corev1.AllowedRelation_Namespace relationType;
     RelationType_Relation := relationName;
     RelationType_Caveat := caveatName |}.

Fixpoint mapRelation_loop (ts : list corev1.AllowedRelation) (types : list RelationType)
  : list RelationType :=
  match ts with
  | [] => types
  | t :: ts' => mapRelation_loop ts' (types ++ [mapRelationType t])
  end.

Definition mapRelation (relation : corev1.Relation) : outcome Relation :=
  let? typeInformation := deref (corev1.Relation_TypeInformation relation) in
  let types := mapRelation_loop (corev1.AllowedDirectRelations typeInformation) [] in
  let? comment := getMetadataComments (corev1.Relation_Metadata relation) in
  Ok {| Relation_Name := corev1.Relation_Name relation;
        Relation_Comment := comment;
        Relation_Types := types |}.

Definition mapPermission (relation : corev1.Relation) : outcome Permission :=
  let? comment := getMetadataComments (corev1.Relation_Metadata relation) in
  Ok {| Permission_Name := corev1.Relation_Name relation;
        Permission_Comment := comment |}.

Section Collaborators.

Variable GetRelationKind : corev1.Relation -> implv1.RelationMetadata_RelationKind.

Fixpoint mapDefinition_loop (rs : list corev1.Relation)
    (relations : list Relation) (permissions : list Permission)
  : outcome (list Relation * list Permission) :=
  match rs with
  | [] => Ok (relations, permissions)
  | r :: rs' =>
      let kind := GetRelationKind r in
      if implv1.RelationKind_eqb kind implv1.RelationMetadata_PERMISSION then
        (let? p := mapPermission r in
         mapDefinition_loop rs' relations (permissions ++ [p]))
      else if implv1.RelationKind_eqb kind implv1.RelationMetadata_RELATION then
        (let? rel := mapRelation r in
         mapDefinition_loop rs' (relations ++ [rel]) permissions)
      else Err (UnexpectedRelation (corev1.Relation_Name r))
  end.

Definition mapDefinition (def : corev1.NamespaceDefinition) : outcome Definition_ :=
  let? groups := mapDefinition_loop (corev1.NamespaceDefinition_Relation def) [] [] in
  let splits := SplitN (corev1.NamespaceDefinition_Name def) "/" 2 in
  let? names := namespaceAndName splits in
  let? comment := getMetadataComments (corev1.NamespaceDefinition_Metadata def) in
  Ok {| Definition_Name := snd names;
        Definition_Namespace := fst names;
        Definition_Relations := fst groups;
        Definition_Permissions := snd groups;
        Definition_Comment := comment |}.

End Collaborators.

(** [mapCaveat]; [order] is the sequence in which [range] yields the
    entries of the map [ParameterTypes], which Go leaves unspecified. *)
Definition mapCaveat (caveat : corev1.CaveatDefinition)
    (order : list (string * corev1.CaveatTypeReference)) : outcome Caveat :=
  let parameters :=
    fold_left (fun (parameters : gmap string string) kv =>
                 insert (fst kv) (corev1.TypeName (snd kv)) parameters)
              order empty in
  let? comment := getMetadataComments (corev1.CaveatDefinition_Metadata caveat) in
  Ok {| Caveat_Name := corev1.CaveatDefinition_Name caveat;
        Caveat_Parameters := parameters;
        Caveat_Comment := comment |}.

End MapSchema.

(** ** Notions used by the statements *)

(** A metadata bag with one documentation comment: the two bytes that
    the compiler puts in front, then the text. *)
Definition docComment (p1 p2 : byte) (text : string) : option corev1.Metadata :=
  Some (corev1.Build_Metadata
          [corev1.Build_Any DocCommentTypeUrl (p1 :: p2 :: list_byte_of_string text)]).

Definition isDocComment (d : corev1.Any) : bool :=
  String.eqb (corev1.TypeUrl d) DocCommentTypeUrl.

(** Every documentation comment of the bag holds the two bytes that the
    extractor cuts off. *)
Definition docCommentsOk (metaData : option corev1.Metadata) : bool :=
  forallb (fun d => negb (isDocComment d) || (2 <=? length (corev1.Value d)))
          (corev1.GetMetadataMessage metaData).

(** The bag holds no documentation comment. *)
Definition noDocComment (metaData : option corev1.Metadata) : bool :=
  forallb (fun d => negb (isDocComment d)) (corev1.GetMetadataMessage metaData).

(** Text that the extractor of [mapSchema.go] has nothing to take from:
    no match of [commentRegex], no white space at either end. *)
Definition normalized (text : string) : bool :=
  String.eqb (ReplaceAllString MapSchema.commentRegex text EmptyString) text
  && String.eqb (TrimSpace text) text.

(** Text without comment decoration: no slash, and no star with a space
    after it. *)
Fixpoint plain (text : string) : bool :=
  match text with
  | EmptyString => true
  | String c rest =>
      negb (Ascii.eqb "/" c)
      && negb (Ascii.eqb "*" c
               && match rest with
                  | String c' _ => Ascii.eqb " " c'
                  | EmptyString => false
                  end)
      && plain rest
  end.

(** A child operation with none of the three shapes that
    [mapUserSetChild] knows. *)
Definition unpopulated (child : corev1.SetOperation_Child) : bool :=
  match corev1.GetComputedUserset child, corev1.GetTupleToUserset child,
        corev1.GetUsersetRewrite child with
  | None, None, None => true
  | _, _, _ => false
  end.

Definition tupleComplete (tuple : corev1.TupleToUserset) : bool :=
  match corev1.TupleToUserset_Tupleset_ tuple, corev1.TupleToUserset_ComputedUserset tuple with
  | Some _, Some _ => true
  | _, _ => false
  end.

(** Every tuple-to-userset node of the rule, at any depth, has both of
    its parts. *)
Definition tuplesComplete_children (tuplesComplete : corev1.UsersetRewrite -> bool)
  : list corev1.SetOperation_Child -> bool :=
  fix children cs :=
    match cs with
    | [] => true
    | c :: cs' =>
        match c with
        | corev1.Child_TupleToUserset tuple => tupleComplete tuple
        | corev1.Child_UsersetRewrite set => tuplesComplete set
        | _ => true
        end && children cs'
    end.

Fixpoint tuplesComplete (userset : corev1.UsersetRewrite) : bool :=
  match userset with
  | corev1.Rewrite_unset => true
  | corev1.Rewrite_Union s
  | corev1.Rewrite_Intersection s
  | corev1.Rewrite_Exclusion s =>
      tuplesComplete_children tuplesComplete (corev1.GetChild s)
  end.

(** A well-formed rule: an operator is populated, and so on for every
    nested rule; every child, at any depth, has one of the three shapes,
    a tuple-to-userset child with both of its parts. *)
Definition wellFormed_children (wellFormedRewrite : corev1.UsersetRewrite -> bool)
  : list corev1.SetOperation_Child -> bool :=
  fix children cs :=
    match cs with
    | [] => true
    | c :: cs' =>
        match c with
        | corev1.Child_ComputedUserset _ => true
        | corev1.Child_TupleToUserset tuple => tupleComplete tuple
        | corev1.Child_UsersetRewrite set => wellFormedRewrite set
        | _ => false
        end && children cs'
    end.

Fixpoint wellFormedRewrite (userset : corev1.UsersetRewrite) : bool :=
  match userset with
  | corev1.Rewrite_unset => false
  | corev1.Rewrite_Union s
  | corev1.Rewrite_Intersection s
  | corev1.Rewrite_Exclusion s =>
      wellFormed_children wellFormedRewrite (corev1.GetChild s)
  end.

(** The operator of a rule, by the name the document gives it, and its
    children. *)
Definition operatorOf (userset : corev1.UsersetRewrite)
  : option (string * list corev1.SetOperation_Child) :=
  match userset with
  | corev1.Rewrite_unset => None
  | corev1.Rewrite_Union s => Some ("union", corev1.GetChild s)
  | corev1.Rewrite_Intersection s => Some ("intersection", corev1.GetChild s)
  | corev1.Rewrite_Exclusion s => Some ("exclusion", corev1.GetChild s)
  end.

Definition leaf (relation permission : string) : Main.UserSet :=
  {| Main.UserSet_Operation := EmptyString;
     Main.UserSet_Relation := relation;
     Main.UserSet_Permission := permission;
     Main.UserSet_Children := [] |}.

(** [Mirrors userset node], following the words of the specification:
    [node] is an operator node tagged with the name of the operator of
    [userset]; its children are, one for one and in the order of the
    source, a leaf for a computed userset, a leaf with relation and
    permission for a tuple-to-userset, and a mirror of the nested rule
    for a nested rule.  Nothing is merged, dropped or reordered. *)
Definition Mirrors_children (Mirrors : corev1.UsersetRewrite -> Main.UserSet -> Prop)
  : list corev1.SetOperation_Child -> list (option Main.UserSet) -> Prop :=
  fix children cs ns :=
    match cs, ns with
    | [], [] => True
    | c :: cs', Some n :: ns' =>
        match c with
        | corev1.Child_ComputedUserset computed =>
            n = leaf (corev1.ComputedUserset_Relation computed) EmptyString
        | corev1.Child_TupleToUserset tuple =>
            exists tupleset computedUserset,
              corev1.TupleToUserset_Tupleset_ tuple = Some tupleset /\
              corev1.TupleToUserset_ComputedUserset tuple = Some computedUserset /\
              n = leaf (corev1.Tupleset_Relation tupleset)
                       (corev1.ComputedUserset_Relation computedUserset)
        | corev1.Child_UsersetRewrite set => Mirrors set n
        | _ => False
        end /\ children cs' ns'
    | _, _ => False
    end.

Fixpoint Mirrors (userset : corev1.UsersetRewrite) (node : Main.UserSet) : Prop :=
  match operatorOf userset with
  | None => False
  | Some (name, _) =>
      Main.UserSet_Operation node = name /\
      Main.UserSet_Relation node = EmptyString /\
      Main.UserSet_Permission node = EmptyString
  end /\
  match userset with
  | corev1.Rewrite_unset => False
  | corev1.Rewrite_Union s
  | corev1.Rewrite_Intersection s
  | corev1.Rewrite_Exclusion s =>
      Mirrors_children Mirrors (corev1.GetChild s) (Main.UserSet_Children node)
  end.

(** The nesting depth of a rule and of a document tree: a leaf counts 1,
    an operator one more than its deepest child. *)
Definition Rewrite_height_children (Rewrite_height : corev1.UsersetRewrite -> nat)
  : list corev1.SetOperation_Child -> nat :=
  fix children cs :=
    match cs with
    | [] => 0
    | c :: cs' =>
        Nat.max match c with
                | corev1.Child_UsersetRewrite set => Rewrite_height set
                | _ => 1
                end
                (children cs')
    end.

Fixpoint Rewrite_height (userset : corev1.UsersetRewrite) : nat :=
  match userset with
  | corev1.Rewrite_unset => 0
  | corev1.Rewrite_Union s
  | corev1.Rewrite_Intersection s
  | corev1.Rewrite_Exclusion s =>
      S (Rewrite_height_children Rewrite_height (corev1.GetChild s))
  end.

Definition UserSet_height_children (UserSet_height : Main.UserSet -> nat)
  : list (option Main.UserSet) -> nat :=
  fix children ns :=
    match ns with
    | [] => 0
    | Some n :: ns' => Nat.max (UserSet_height n) (children ns')
    | None :: ns' => children ns'
    end.

Fixpoint UserSet_height (node : Main.UserSet) : nat :=
  S (UserSet_height_children UserSet_height (Main.UserSet_Children node)).

(** The nodes of a document tree, root first; nil entries are no nodes. *)
Definition UserSet_nodes_children (UserSet_nodes : Main.UserSet -> list Main.UserSet)
  : list (option Main.UserSet) -> list Main.UserSet :=
  fix children ns :=
    match ns with
    | [] => []
    | Some n :: ns' => UserSet_nodes n ++ children ns'
    | None :: ns' => children ns'
    end.

Fixpoint UserSet_nodes (node : Main.UserSet) : list Main.UserSet :=
  node :: UserSet_nodes_children UserSet_nodes (Main.UserSet_Children node).

(** [P] holds of the rule that a child nests, if it nests one. *)
Definition nestedRule (P : corev1.UsersetRewrite -> Prop)
    (child : corev1.SetOperation_Child) : Prop :=
  match child with
  | corev1.Child_UsersetRewrite set => P set
  | _ => True
  end.

(** [P] holds of every node below an entry of a child list. *)
Definition nestedNode (P : Main.UserSet -> Prop) (entry : option Main.UserSet) : Prop :=
  match entry with
  | Some n => P n
  | None => True
  end.

(** The rule of the type-reference mapper, in the words of the
    specification, on the three fields of its result. *)
Definition RelationTypeRule (relationType : corev1.AllowedRelation)
    (type relation caveat : string) : Prop :=
  type = corev1.AllowedRelation_Namespace relationType /\
  (corev1.RelationOrWildcard relationType = corev1.AllowedRelation_PublicWildcard ->
   relation = "*") /\
  (corev1.RelationOrWildcard relationType = corev1.AllowedRelation_Relation "..." ->
   relation = EmptyString) /\
  (forall name,
     corev1.RelationOrWildcard relationType = corev1.AllowedRelation_Relation name ->
     name <> "..." -> relation = name) /\
  (forall c, corev1.RequiredCaveat relationType = Some c ->
             caveat = corev1.CaveatName c) /\
  (corev1.RequiredCaveat relationType = None -> caveat = EmptyString).

(** The two shapes of a node of the document tree, as the program builds
    them: an operator node carries one of the three operator names and
    neither relation nor permission; a leaf carries no operator and no
    children. *)
Definition operatorNode (node : Main.UserSet) : Prop :=
  (Main.UserSet_Operation node = "union" \/
   Main.UserSet_Operation node = "intersection" \/
   Main.UserSet_Operation node = "exclusion") /\
  Main.UserSet_Relation node = EmptyString /\
  Main.UserSet_Permission node = EmptyString.

Definition leafNode (node : Main.UserSet) : Prop :=
  Main.UserSet_Operation node = EmptyString /\
  Main.UserSet_Children node = [].

(** The two shapes with every field of the shape required non-empty. *)
Definition populatedOperatorNode (node : Main.UserSet) : Prop :=
  Main.UserSet_Operation node <> EmptyString /\
  Main.UserSet_Children node <> [] /\
  Main.UserSet_Relation node = EmptyString /\
  Main.UserSet_Permission node = EmptyString.

Definition populatedLeafNode (node : Main.UserSet) : Prop :=
  Main.UserSet_Relation node <> EmptyString /\
  Main.UserSet_Operation node = EmptyString /\
  Main.UserSet_Children node = [].

(** The rule of the qualified-name split, in the words of the
    specification: the split is at the first separator; without one the
    namespace is empty and the name is the whole string. *)
Definition SplitRule (qualified namespace name : string) : Prop :=
  (forall a b, qualified = a +:+ "/" +:+ b -> Index a "/" = None ->
               namespace = a /\ name = b) /\
  (Index qualified "/" = None -> namespace = EmptyString /\ name = qualified) /\
  (qualified = "a/b" -> namespace = "a" /\ name = "b") /\
  (qualified = "b" -> namespace = EmptyString /\ name = "b") /\
  (qualified = "a/b/c" -> namespace = "a" /\ name = "b/c").

(** A node of exactly one of the two shapes. *)
Definition exclusiveShape (node : Main.UserSet) : Prop :=
  (operatorNode node /\ ~ leafNode node) \/ (leafNode node /\ ~ operatorNode node).

Section Kinds.

Variable GetRelationKind : corev1.Relation -> implv1.RelationMetadata_RelationKind.

Definition isPermission (r : corev1.Relation) : bool :=
  implv1.RelationKind_eqb (GetRelationKind r) implv1.RelationMetadata_PERMISSION.

Definition isRelation (r : corev1.Relation) : bool :=
  implv1.RelationKind_eqb (GetRelationKind r) implv1.RelationMetadata_RELATION.

(** What the mappers read of a relation is there: the two leading bytes
    of every documentation comment, the type information of a storage
    relation, both parts of every tuple-to-userset of a permission. *)
Definition relationStructureOk (r : corev1.Relation) : bool :=
  docCommentsOk (corev1.Relation_Metadata r) &&
  match GetRelationKind r with
  | implv1.RelationMetadata_PERMISSION =>
      match corev1.Relation_UsersetRewrite r with
      | Some userset => tuplesComplete userset
      | None => true
      end
  | implv1.RelationMetadata_RELATION =>
      match corev1.Relation_TypeInformation r with
      | Some _ => true
      | None => false
      end
  | implv1.RelationMetadata_UNKNOWN_KIND => true
  end.

Definition definitionStructureOk (def : corev1.NamespaceDefinition) : bool :=
  forallb relationStructureOk (corev1.NamespaceDefinition_Relation def)
  && docCommentsOk (corev1.NamespaceDefinition_Metadata def).

(** A well-formed object-type definition: structurally valid, and every
    relation a storage relation or a permission. *)
Definition wellFormedDefinition (def : corev1.NamespaceDefinition) : bool :=
  definitionStructureOk def
  && forallb (fun r => isPermission r || isRelation r)
             (corev1.NamespaceDefinition_Relation def).

(** A definition with a relation that is neither. *)
Definition hasUnclassified (def : corev1.NamespaceDefinition) : bool :=
  existsb (fun r => negb (isPermission r || isRelation r))
          (corev1.NamespaceDefinition_Relation def).

(** The partition of the relations [rs] of a definition over the two
    groups of the document: the storage relations of [rs], in their
    order, are mapped one for one to [relations]; the permissions of
    [rs], in their order, to [permissions]; every relation is in exactly
    one of the two groups. *)
Definition Partitioned {R P : Type}
    (mapRelation : corev1.Relation -> outcome R)
    (mapPermission : corev1.Relation -> outcome P)
    (rs : list corev1.Relation) (relations : list R) (permissions : list P) : Prop :=
  Forall2 (fun r out => mapRelation r = Ok out) (List.filter isRelation rs) relations /\
  Forall2 (fun r out => mapPermission r = Ok out) (List.filter isPermission rs) permissions /\
  (forall r, In r rs -> isRelation r = negb (isPermission r)) /\
  length relations + length permissions = length rs.

End Kinds.

(** ** A schema to run the mappers on *)

(** The kinds of the relations below, by name; any other relation is of
    unknown kind. *)
Definition exampleKind (r : corev1.Relation) : implv1.RelationMetadata_RelationKind :=
  if String.eqb (corev1.Relation_Name r) "view" then implv1.RelationMetadata_PERMISSION
  else if String.eqb (corev1.Relation_Name r) "viewer" then implv1.RelationMetadata_RELATION
  else implv1.RelationMetadata_UNKNOWN_KIND.

(** [relation viewer: user], with a documentation comment. *)
Definition viewer : corev1.Relation :=
  {| corev1.Relation_Name := "viewer";
     corev1.Relation_UsersetRewrite := None;
     corev1.Relation_TypeInformation :=
       Some (corev1.Build_TypeInformation
               [corev1.Build_AllowedRelation "user" (corev1.AllowedRelation_Relation "...") None]);
     corev1.Relation_Metadata := docComment x0a x0e "// who may view" |}.

(** [permission view = viewer]. *)
Definition view : corev1.Relation :=
  {| corev1.Relation_Name := "view";
     corev1.Relation_UsersetRewrite :=
       Some (corev1.Rewrite_Union
               (corev1.Build_SetOperation
                  [corev1.Child_ComputedUserset (corev1.Build_ComputedUserset "viewer")]));
     corev1.Relation_TypeInformation := None;
     corev1.Relation_Metadata := None |}.

Definition document : corev1.NamespaceDefinition :=
  {| corev1.NamespaceDefinition_Name := "ns/document";
     corev1.NamespaceDefinition_Relation := [viewer; view];
     corev1.NamespaceDefinition_Metadata := None |}.

(** A definition with a relation of unknown kind. *)
Definition folder : corev1.NamespaceDefinition :=
  {| corev1.NamespaceDefinition_Name := "ns/folder";
     corev1.NamespaceDefinition_Relation :=
       [viewer; corev1.Build_Relation "owner" None None None; view];
     corev1.NamespaceDefinition_Metadata := None |}.

Definition brokenSchema : corev1.CompiledSchema :=
  {| corev1.ObjectDefinitions := [document; folder];
     corev1.CaveatDefinitions := [] |}.

(** A writer that keeps what it is given, and an encoder. *)
Definition keep (w : list string) (data : string) : list string * option error :=
  (w ++ [data], None).
Definition encoded (_ : Main.Schema) : string + error := inl "{}".

(** [caveat has_access(ip ipaddress, limit int)]. *)
Definition has_access : corev1.CaveatDefinition :=
  {| corev1.CaveatDefinition_Name := "has_access";
     corev1.ParameterTypes :=
       list_to_map [("ip", corev1.Build_CaveatTypeReference "ipaddress");
                    ("limit", corev1.Build_CaveatTypeReference "int")];
     corev1.CaveatDefinition_Metadata := None |}.

(** ** Notions used by the further properties *)

(** The texts of the documentation comments of a bag, in the order of
    the bag, each after [strip]. *)
Definition docTexts (strip : string -> string) (metaData : option corev1.Metadata)
  : list string :=
  List.map (fun d => strip (string_of_list_byte (skipn 2 (corev1.Value d))))
           (List.filter isDocComment (corev1.GetMetadataMessage metaData)).

(** Every text followed by a line feed. *)
Fixpoint joinLines (texts : list string) : string :=
  match texts with
  | [] => EmptyString
  | text :: texts' => (text +:+ LF) +:+ joinLines texts'
  end.

(** The decoration stripper of [mapSchema.go]. *)
Definition stripDecoration (text : string) : string :=
  ReplaceAllString MapSchema.commentRegex text EmptyString.

Definition populated (child : corev1.SetOperation_Child) : bool :=
  negb (unpopulated child).

(** A regular expression that matches the empty string. *)
Fixpoint nullable (r : regex) : bool :=
  match r with
  | Lit _ => false
  | Cat r1 r2 => nullable r1 && nullable r2
  | Alt r1 r2 => nullable r1 || nullable r2
  | Opt _ => true
  end.

(** ** Outcomes *)

Lemma bind_Ok {A B : Type} (m : outcome A) (k : A -> outcome B) (a : A) :
  m = Ok a -> bind m k = k a.
Proof. intros ->. reflexivity. Qed.

Lemma bind_Ok_inv {A B : Type} (m : outcome A) (k : A -> outcome B) (b : B) :
  bind m k = Ok b -> exists a, m = Ok a /\ k a = Ok b.
Proof. destruct m as [a | e | p]; simpl; intros H; try discriminate. eauto. Qed.

(** ** The comment extractor *)

Lemma Main_getMetadataComments_loop_ok (ds : list corev1.Any) :
  forallb (fun d => negb (isDocComment d) || (2 <=? length (corev1.Value d))) ds = true ->
  forall comment, exists c, Main.getMetadataComments_loop ds comment = Ok c.
Proof.
  induction ds as [| d ds IH]; intros Hok comment.
  - simpl. eauto.
  - cbn [forallb] in Hok. apply andb_prop in Hok as [Hd Hds].
    unfold isDocComment in Hd. cbn [Main.getMetadataComments_loop].
    destruct (String.eqb (corev1.TypeUrl d) DocCommentTypeUrl); cbn [negb orb] in Hd.
    + unfold slice_from. rewrite Hd. cbn [bind]. apply IH, Hds.
    + apply IH, Hds.
Qed.

Lemma MapSchema_getMetadataComments_loop_ok (ds : list corev1.Any) :
  forallb (fun d => negb (isDocComment d) || (2 <=? length (corev1.Value d))) ds = true ->
  forall comment, exists c, MapSchema.getMetadataComments_loop ds comment = Ok c.
Proof.
  induction ds as [| d ds IH]; intros Hok comment.
  - simpl. eauto.
  - cbn [forallb] in Hok. apply andb_prop in Hok as [Hd Hds].
    unfold isDocComment in Hd. cbn [MapSchema.getMetadataComments_loop].
    destruct (String.eqb (corev1.TypeUrl d) DocCommentTypeUrl); cbn [negb orb] in Hd.
    + unfold slice_from. rewrite Hd. cbn [bind]. apply IH, Hds.
    + apply IH, Hds.
Qed.

Lemma Main_getMetadataComments_ok (metaData : option corev1.Metadata) :
  docCommentsOk metaData = true ->
  exists c, Main.getMetadataComments metaData = Ok c.
Proof.
  intros Hok. unfold Main.getMetadataComments.
  destruct (Main_getMetadataComments_loop_ok _ Hok EmptyString) as [c ->].
  simpl. eauto.
Qed.

Lemma MapSchema_getMetadataComments_ok (metaData : option corev1.Metadata) :
  docCommentsOk metaData = true ->
  exists c, MapSchema.getMetadataComments metaData = Ok c.
Proof.
  intros Hok. unfold MapSchema.getMetadataComments.
  destruct (MapSchema_getMetadataComments_loop_ok _ Hok EmptyString) as [c ->].
  simpl. eauto.
Qed.

Lemma Main_getMetadataComments_loop_none (ds : list corev1.Any) :
  forallb (fun d => negb (isDocComment d)) ds = true ->
  forall comment, Main.getMetadataComments_loop ds comment = Ok comment.
Proof.
  induction ds as [| d ds IH]; simpl; intros Hno comment; [reflexivity |].
  apply andb_prop in Hno as [Hd Hds]. unfold isDocComment in Hd.
  destruct (String.eqb (corev1.TypeUrl d) DocCommentTypeUrl); [discriminate |].
  apply IH, Hds.
Qed.

Lemma MapSchema_getMetadataComments_loop_none (ds : list corev1.Any) :
  forallb (fun d => negb (isDocComment d)) ds = true ->
  forall comment, MapSchema.getMetadataComments_loop ds comment = Ok comment.
Proof.
  induction ds as [| d ds IH]; simpl; intros Hno comment; [reflexivity |].
  apply andb_prop in Hno as [Hd Hds]. unfold isDocComment in Hd.
  destruct (String.eqb (corev1.TypeUrl d) DocCommentTypeUrl); [discriminate |].
  apply IH, Hds.
Qed.

(** C4, as the code has it.  On a metadata bag whose documentation
    comments all hold the two leading bytes, the comment extractor of
    either file returns a string; when the bag holds no documentation
    comment (the nil bag included), that string is empty. *)
Theorem getMetadataComments_total_on_prefixed_payloads
    (metaData : option corev1.Metadata)
    (Hok : docCommentsOk metaData = true) :
  (exists c, Main.getMetadataComments metaData = Ok c) /\
  (exists c, MapSchema.getMetadataComments metaData = Ok c) /\
  (noDocComment metaData = true ->
   Main.getMetadataComments metaData = Ok EmptyString /\
   MapSchema.getMetadataComments metaData = Ok EmptyString).
Proof.
  split; [apply Main_getMetadataComments_ok, Hok |].
  split; [apply MapSchema_getMetadataComments_ok, Hok |].
  intros Hno. unfold Main.getMetadataComments, MapSchema.getMetadataComments.
  rewrite (Main_getMetadataComments_loop_none _ Hno).
  rewrite (MapSchema_getMetadataComments_loop_none _ Hno).
  split; reflexivity.
Qed.

Lemma getMetadataComments_total_on_prefixed_payloads_witness :
  let metaData :=
    Some (corev1.Build_Metadata
            [corev1.Build_Any "type.googleapis.com/impl.v1.RelationMetadata" []]) in
  docCommentsOk metaData = true /\
  Main.getMetadataComments metaData = Ok EmptyString /\
  MapSchema.getMetadataComments metaData = Ok EmptyString /\
  Main.getMetadataComments None = Ok EmptyString.
Proof.
  intros metaData.
  split; [reflexivity |].
  split; [| split].
  - apply (getMetadataComments_total_on_prefixed_payloads metaData); reflexivity.
  - apply (getMetadataComments_total_on_prefixed_payloads metaData); reflexivity.
  - apply (getMetadataComments_total_on_prefixed_payloads None); reflexivity.
Defined.

(** A documentation comment of fewer than two bytes: [d.GetValue()[2:]]
    is out of range and the extractor of either file panics. *)
Lemma getMetadataComments_panics_on_short_payload :
  let metaData :=
    Some (corev1.Build_Metadata [corev1.Build_Any DocCommentTypeUrl [x2f]]) in
  Main.getMetadataComments metaData = Panic sliceBoundsOutOfRange /\
  MapSchema.getMetadataComments metaData = Panic sliceBoundsOutOfRange.
Proof. split; reflexivity. Qed.

(** ** The type-reference mapper *)

(** C8.  The type-reference mapper of either file is a total function;
    the relation of its result is the star for the wildcard variant,
    empty for the self-reference [...], and the named sub-relation
    otherwise; the caveat is the name of the required caveat, or empty
    without one; the type is the namespace of the reference. *)
Theorem mapRelationType_rule (relationType : corev1.AllowedRelation) :
  RelationTypeRule relationType
    (Main.RelationType_Type (Main.mapRelationType relationType))
    (Main.RelationType_Relation (Main.mapRelationType relationType))
    (Main.RelationType_Caveat (Main.mapRelationType relationType)) /\
  RelationTypeRule relationType
    (MapSchema.RelationType_Type (MapSchema.mapRelationType relationType))
    (MapSchema.RelationType_Relation (MapSchema.mapRelationType relationType))
    (MapSchema.RelationType_Caveat (MapSchema.mapRelationType relationType)).
Proof.
  destruct relationType as [namespace row caveat].
  unfold RelationTypeRule, Main.mapRelationType, MapSchema.mapRelationType; simpl.
  assert (Hself : forall name, name <> "..." -> String.eqb name "..." = false)
    by (intros name Hne; apply String.eqb_neq, Hne).
  split; (split; [reflexivity |]);
    (split; [intros ->; reflexivity |]);
    (split; [intros ->; reflexivity |]);
    (split; [intros name -> Hne; rewrite (Hself name Hne); reflexivity |]);
    (split; [intros c ->; reflexivity | intros ->; reflexivity]).
Qed.

Lemma mapRelationType_rule_witness :
  let wildcard := corev1.Build_AllowedRelation "user" corev1.AllowedRelation_PublicWildcard None in
  let self := corev1.Build_AllowedRelation "user" (corev1.AllowedRelation_Relation "...")
                (Some (corev1.Build_AllowedCaveat "on_weekdays")) in
  let member := corev1.Build_AllowedRelation "group" (corev1.AllowedRelation_Relation "member") None in
  Main.RelationType_Relation (Main.mapRelationType wildcard) = "*" /\
  Main.RelationType_Relation (Main.mapRelationType self) = EmptyString /\
  Main.RelationType_Caveat (Main.mapRelationType self) = "on_weekdays" /\
  MapSchema.RelationType_Relation (MapSchema.mapRelationType member) = "member".
Proof.
  intros wildcard self member.
  destruct (mapRelationType_rule wildcard) as [(_ & Hwildcard & _) _].
  destruct (mapRelationType_rule self) as [(_ & _ & Hself & _ & Hcaveat & _) _].
  destruct (mapRelationType_rule member) as [_ (_ & _ & _ & Hmember & _)].
  split; [apply Hwildcard; reflexivity |].
  split; [apply Hself; reflexivity |].
  split; [apply (Hcaveat (corev1.Build_AllowedCaveat "on_weekdays")); reflexivity |].
  apply (Hmember "member"); [reflexivity | discriminate].
Defined.

(** ** The rewrite-tree mapper *)

(** Induction on a rule with, for the children of its operator, the
    property of every nested rule. *)
Lemma UsersetRewrite_nested_ind (P : corev1.UsersetRewrite -> Prop) :
  P corev1.Rewrite_unset ->
  (forall s, Forall (nestedRule P) (corev1.GetChild s) -> P (corev1.Rewrite_Union s)) ->
  (forall s, Forall (nestedRule P) (corev1.GetChild s) -> P (corev1.Rewrite_Intersection s)) ->
  (forall s, Forall (nestedRule P) (corev1.GetChild s) -> P (corev1.Rewrite_Exclusion s)) ->
  forall userset, P userset.
Proof.
  intros Hunset Hunion Hintersection Hexclusion.
  fix IH 1.
  assert (Hchildren : forall cs, Forall (nestedRule P) cs).
  { fix IHcs 1. intros [| c cs]; constructor.
    - destruct c; simpl; auto.
    - apply IHcs. }
  intros [| [cs] | [cs] | [cs]].
  - exact Hunset.
  - apply Hunion, Hchildren.
  - apply Hintersection, Hchildren.
  - apply Hexclusion, Hchildren.
Qed.

Section Loop.

Variable f : corev1.UsersetRewrite -> outcome (option Main.UserSet).

(** The loop runs the body that the source writes, child after child. *)
Lemma mapUserSetChild_loop_body (child : corev1.SetOperation_Child)
    (rest : list corev1.SetOperation_Child) (sets : list (option Main.UserSet)) :
  Main.mapUserSetChild_loop f (child :: rest) sets =
  bind (Main.mapUserSetChild_body f child sets)
       (fun sets' => Main.mapUserSetChild_loop f rest sets').
Proof.
  unfold Main.mapUserSetChild_body.
  destruct child as [| | computed | tuple | set |]; simpl; try reflexivity.
  - destruct (corev1.TupleToUserset_Tupleset_ tuple); simpl; try reflexivity.
    destruct (corev1.TupleToUserset_ComputedUserset tuple); reflexivity.
  - destruct (f set); reflexivity.
Qed.

Lemma mapUserSetChild_loop_app (before after : list corev1.SetOperation_Child) :
  forall sets,
    Main.mapUserSetChild_loop f (before ++ after) sets =
    bind (Main.mapUserSetChild_loop f before sets)
         (fun sets' => Main.mapUserSetChild_loop f after sets').
Proof.
  induction before as [| child before IH]; intros sets; [reflexivity |].
  rewrite <- app_comm_cons, !mapUserSetChild_loop_body.
  destruct (Main.mapUserSetChild_body f child sets); simpl; auto.
Qed.

Lemma mapUserSetChild_loop_unpopulated (child : corev1.SetOperation_Child)
    (rest : list corev1.SetOperation_Child) (sets : list (option Main.UserSet)) :
  unpopulated child = true ->
  Main.mapUserSetChild_loop f (child :: rest) sets = Main.mapUserSetChild_loop f rest sets.
Proof. destruct child; simpl; intros H; try discriminate; reflexivity. Qed.

Lemma mapUserSetChild_loop_no_error (cs : list corev1.SetOperation_Child) :
  Forall (nestedRule (fun set => forall e, f set <> Err e)) cs ->
  forall sets e, Main.mapUserSetChild_loop f cs sets <> Err e.
Proof.
  induction 1 as [| child cs Hchild _ IH]; intros sets e; [discriminate |].
  destruct child as [| | computed | tuple | set |]; simpl; try apply IH.
  - destruct (corev1.TupleToUserset_Tupleset_ tuple); simpl; [| discriminate].
    destruct (corev1.TupleToUserset_ComputedUserset tuple); simpl; [| discriminate].
    apply IH.
  - simpl in Hchild. destruct (f set) as [mapped | e' | p] eqn:Hset; simpl.
    + apply IH.
    + destruct (Hchild e' eq_refl).
    + discriminate.
Qed.

End Loop.

Lemma mapUserSet_nonnil_no_error (userset : corev1.UsersetRewrite) :
  forall e, Main.mapUserSet_nonnil userset <> Err e.
Proof.
  induction userset as [| s IH | s IH | s IH] using UsersetRewrite_nested_ind;
    intros e; simpl; try discriminate;
    destruct (Main.mapUserSetChild_loop Main.mapUserSet_nonnil (corev1.GetChild s) [])
      as [children | e' | p] eqn:Hloop; simpl; try discriminate;
    destruct (mapUserSetChild_loop_no_error _ _ IH [] e' Hloop).
Qed.

(** The two mappers are the two functions of the source, each calling
    the other. *)
Lemma mapUserSet_as_written (userset : option corev1.UsersetRewrite) :
  Main.mapUserSet userset = Main.mapUserSet_body Main.mapUserSetChild userset.
Proof. destruct userset as [[| s | s | s] |]; reflexivity. Qed.

Lemma mapUserSetChild_as_written (child : corev1.SetOperation_Child)
    (rest : list corev1.SetOperation_Child) (sets : list (option Main.UserSet)) :
  Main.mapUserSetChild_loop (fun set => Main.mapUserSet (Some set)) (child :: rest) sets =
  bind (Main.mapUserSetChild_body (fun set => Main.mapUserSet (Some set)) child sets)
       (fun sets' =>
          Main.mapUserSetChild_loop (fun set => Main.mapUserSet (Some set)) rest sets').
Proof. apply mapUserSetChild_loop_body. Qed.

(** C9.  The rewrite-tree mapper degrades silently on a malformed node:
    a rule with no operator populated (or the nil rule) maps to the nil
    UserSet; a child with none of the three shapes populated is left out
    of the children, which are those of the list without it; and no call
    of the mapper returns an error. *)
Theorem malformed_rewrite_nodes_are_dropped_silently
    (before after : list corev1.SetOperation_Child)
    (child : corev1.SetOperation_Child)
    (Hchild : unpopulated child = true) :
  Main.mapUserSet (Some corev1.Rewrite_unset) = Ok None /\
  Main.mapUserSet None = Ok None /\
  Main.mapUserSetChild (before ++ child :: after) = Main.mapUserSetChild (before ++ after) /\
  (forall userset e, Main.mapUserSet userset <> Err e) /\
  (forall children e, Main.mapUserSetChild children <> Err e).
Proof.
  split; [reflexivity |]. split; [reflexivity |].
  split; [| split].
  - unfold Main.mapUserSetChild.
    rewrite !mapUserSetChild_loop_app.
    destruct (Main.mapUserSetChild_loop _ before []); simpl; try reflexivity.
    apply mapUserSetChild_loop_unpopulated, Hchild.
  - intros [userset |] e; simpl; [apply mapUserSet_nonnil_no_error | discriminate].
  - intros children e. unfold Main.mapUserSetChild.
    apply mapUserSetChild_loop_no_error.
    apply Forall_forall. intros [| | | | set |] _; simpl; auto.
    apply mapUserSet_nonnil_no_error.
Qed.

Lemma malformed_rewrite_nodes_are_dropped_silently_witness :
  let viewer := corev1.Child_ComputedUserset (corev1.Build_ComputedUserset "viewer") in
  let editor := corev1.Child_ComputedUserset (corev1.Build_ComputedUserset "editor") in
  unpopulated corev1.Child_unset = true /\
  Main.mapUserSetChild [viewer; corev1.Child_unset; editor] =
  Main.mapUserSetChild [viewer; editor].
Proof.
  intros viewer editor. split; [reflexivity |].
  apply (malformed_rewrite_nodes_are_dropped_silently [viewer] [editor] corev1.Child_unset).
  reflexivity.
Defined.

(** A nested rule with no operator populated is a populated child: its
    entry in the children is the nil pointer, not left out. *)
Lemma mapUserSetChild_nested_unset_is_nil_entry :
  Main.mapUserSetChild [corev1.Child_UsersetRewrite corev1.Rewrite_unset] = Ok [None].
Proof. reflexivity. Qed.

(** The children of a well-formed operator: every child adds its one
    node, in order. *)
Lemma mapUserSetChild_loop_mirrors (cs : list corev1.SetOperation_Child) :
  Forall (nestedRule (fun set =>
            wellFormedRewrite set = true ->
            exists node, Main.mapUserSet_nonnil set = Ok (Some node) /\
                         Mirrors set node /\
                         UserSet_height node = Rewrite_height set)) cs ->
  wellFormed_children wellFormedRewrite cs = true ->
  forall sets, exists ns,
    Main.mapUserSetChild_loop Main.mapUserSet_nonnil cs sets = Ok (sets ++ ns) /\
    Mirrors_children Mirrors cs ns /\
    UserSet_height_children UserSet_height ns =
    Rewrite_height_children Rewrite_height cs.
Proof.
  induction 1 as [| child cs Hchild _ IH]; intros Hwf sets.
  - exists []. rewrite app_nil_r. repeat split.
  - simpl in Hwf. apply andb_prop in Hwf as [Hhead Htail].
    specialize (IH Htail).
    destruct child as [| | computed | tuple | set |]; try discriminate; simpl.
    + destruct (IH (sets ++ [Some (leaf (corev1.ComputedUserset_Relation computed) EmptyString)]))
        as (ns & Hloop & Hmirror & Hheight).
      eexists (Some _ :: ns). rewrite <- app_assoc in Hloop.
      split; [exact Hloop |]. split; [split; [reflexivity | exact Hmirror] |].
      simpl. rewrite Hheight. reflexivity.
    + unfold tupleComplete in Hhead.
      destruct (corev1.TupleToUserset_Tupleset_ tuple) as [tupleset |] eqn:Htupleset;
        [| discriminate].
      destruct (corev1.TupleToUserset_ComputedUserset tuple) as [computedUserset |] eqn:Hcomputed;
        [| discriminate].
      simpl.
      destruct (IH (sets ++ [Some (leaf (corev1.Tupleset_Relation tupleset)
                                        (corev1.ComputedUserset_Relation computedUserset))]))
        as (ns & Hloop & Hmirror & Hheight).
      eexists (Some _ :: ns). rewrite <- app_assoc in Hloop.
      split; [exact Hloop |].
      split; [split; [exists tupleset, computedUserset; repeat split | exact Hmirror] |].
      simpl. rewrite Hheight. reflexivity.
    + simpl in Hchild. destruct (Hchild Hhead) as (node & Hset & Hnode & Hnodeheight).
      rewrite Hset. simpl.
      destruct (IH (sets ++ [Some node])) as (ns & Hloop & Hmirror & Hheight).
      exists (Some node :: ns). rewrite <- app_assoc in Hloop.
      split; [exact Hloop |]. split; [split; [exact Hnode | exact Hmirror] |].
      simpl. rewrite Hheight, Hnodeheight. reflexivity.
Qed.

Lemma mapUserSet_nonnil_mirrors (userset : corev1.UsersetRewrite) :
  wellFormedRewrite userset = true ->
  exists node, Main.mapUserSet_nonnil userset = Ok (Some node) /\
               Mirrors userset node /\
               UserSet_height node = Rewrite_height userset.
Proof.
  induction userset as [| s IH | s IH | s IH] using UsersetRewrite_nested_ind;
    simpl; intros Hwf; try discriminate;
    destruct (mapUserSetChild_loop_mirrors _ IH Hwf []) as (ns & Hloop & Hmirror & Hheight);
    simpl in Hloop; rewrite Hloop; simpl;
    eexists; (split; [reflexivity |]); simpl; rewrite Hheight; auto.
Qed.

(** C1.  For a rule with an operator populated and all descendants
    well-formed, the rewrite-tree mapper returns a tree that mirrors the
    rule: the root carries the name of the operator, the children are
    those of the source, one for one and in its order, a nested rule
    gives a subtree that mirrors it, and the nesting depth is that of
    the rule. *)
Theorem mapUserSet_mirrors_rule (userset : corev1.UsersetRewrite)
    (Hwf : wellFormedRewrite userset = true) :
  exists node,
    Main.mapUserSet (Some userset) = Ok (Some node) /\
    Mirrors userset node /\
    UserSet_height node = Rewrite_height userset.
Proof. apply mapUserSet_nonnil_mirrors, Hwf. Qed.

Lemma mapUserSet_mirrors_rule_witness :
  let A := corev1.Child_ComputedUserset (corev1.Build_ComputedUserset "viewer") in
  let B := corev1.Child_TupleToUserset
             (corev1.Build_TupleToUserset
                (Some (corev1.Build_TupleToUserset_Tupleset "parent"))
                (Some (corev1.Build_ComputedUserset "banned"))) in
  let C := corev1.Child_UsersetRewrite
             (corev1.Rewrite_Union
                (corev1.Build_SetOperation
                   [corev1.Child_ComputedUserset (corev1.Build_ComputedUserset "blocked")])) in
  let rule := corev1.Rewrite_Exclusion (corev1.Build_SetOperation [A; B; C]) in
  wellFormedRewrite rule = true /\
  exists node,
    Main.mapUserSet (Some rule) = Ok (Some node) /\
    Mirrors rule node /\
    UserSet_height node = Rewrite_height rule.
Proof.
  intros A B C rule. split; [reflexivity |].
  apply (mapUserSet_mirrors_rule rule). reflexivity.
Defined.

(** A mirror has as many children as the rule: nothing is flattened or
    deduplicated. *)
Lemma Mirrors_children_length (cs : list corev1.SetOperation_Child) :
  forall ns, Mirrors_children Mirrors cs ns -> length ns = length cs.
Proof.
  induction cs as [| c cs IH]; intros [| [n |] ns]; simpl; try tauto.
  intros [_ Hrest]. f_equal. apply IH, Hrest.
Qed.

Lemma Mirrors_branching (userset : corev1.UsersetRewrite) (node : Main.UserSet) :
  Mirrors userset node ->
  exists name cs,
    operatorOf userset = Some (name, cs) /\
    Main.UserSet_Operation node = name /\
    length (Main.UserSet_Children node) = length cs.
Proof.
  destruct userset as [| s | s | s]; simpl; intros [Hop Hchildren]; try tauto;
    destruct Hop as (Hname & _);
    eexists _, _; (split; [reflexivity |]); (split; [exact Hname |]);
    apply Mirrors_children_length, Hchildren.
Qed.

(** The exclusion of the children A, B and C maps to the operator
    [exclusion] over the nodes of A, B and C in that order; with A and B
    exchanged in the rule, they are exchanged in the tree. *)
Example mapUserSet_exclusion_keeps_order :
  let A := corev1.Child_ComputedUserset (corev1.Build_ComputedUserset "viewer") in
  let B := corev1.Child_TupleToUserset
             (corev1.Build_TupleToUserset
                (Some (corev1.Build_TupleToUserset_Tupleset "parent"))
                (Some (corev1.Build_ComputedUserset "banned"))) in
  let C := corev1.Child_UsersetRewrite
             (corev1.Rewrite_Union
                (corev1.Build_SetOperation
                   [corev1.Child_ComputedUserset (corev1.Build_ComputedUserset "blocked")])) in
  let A' := Some (leaf "viewer" EmptyString) in
  let B' := Some (leaf "parent" "banned") in
  let C' := Some (Main.Build_UserSet "union" EmptyString EmptyString
                    [Some (leaf "blocked" EmptyString)]) in
  Main.mapUserSet (Some (corev1.Rewrite_Exclusion (corev1.Build_SetOperation [A; B; C])))
  = Ok (Some (Main.Build_UserSet "exclusion" EmptyString EmptyString [A'; B'; C'])) /\
  Main.mapUserSet (Some (corev1.Rewrite_Exclusion (corev1.Build_SetOperation [B; A; C])))
  = Ok (Some (Main.Build_UserSet "exclusion" EmptyString EmptyString [B'; A'; C'])).
Proof. split; reflexivity. Qed.

(** A union in a union keeps its own node. *)
Example mapUserSet_nested_union_not_flattened :
  let computed name := corev1.Child_ComputedUserset (corev1.Build_ComputedUserset name) in
  let inner := corev1.Rewrite_Union (corev1.Build_SetOperation
                                       [computed "leaf1"; computed "leaf2"]) in
  let outer := corev1.Rewrite_Union (corev1.Build_SetOperation
                                       [corev1.Child_UsersetRewrite inner; computed "leaf3"]) in
  Main.mapUserSet (Some outer)
  = Ok (Some (Main.Build_UserSet "union" EmptyString EmptyString
                [Some (Main.Build_UserSet "union" EmptyString EmptyString
                         [Some (leaf "leaf1" EmptyString); Some (leaf "leaf2" EmptyString)]);
                 Some (leaf "leaf3" EmptyString)])).
Proof. reflexivity. Qed.

(** The nodes of the tree. *)

Lemma UserSet_nodes_children_Forall (P : Main.UserSet -> Prop)
    (ns : list (option Main.UserSet)) :
  Forall (nestedNode (fun n => Forall P (UserSet_nodes n))) ns ->
  Forall P (UserSet_nodes_children UserSet_nodes ns).
Proof.
  induction 1 as [| [n |] ns Hn _ IH]; simpl; auto.
  apply Forall_app; split; assumption.
Qed.

Lemma leaf_exclusiveShape (relation permission : string) :
  exclusiveShape (leaf relation permission).
Proof.
  right. split; [split; reflexivity |].
  intros [[H | [H | H]] _]; discriminate H.
Qed.

Lemma operator_exclusiveShape (name : string) (children : list (option Main.UserSet)) :
  name = "union" \/ name = "intersection" \/ name = "exclusion" ->
  exclusiveShape (Main.Build_UserSet name EmptyString EmptyString children).
Proof.
  intros Hname. left. split; [split; [exact Hname | split; reflexivity] |].
  intros [H _]; simpl in H. destruct Hname as [-> | [-> | ->]]; discriminate H.
Qed.

Lemma mapUserSetChild_loop_shapes (cs : list corev1.SetOperation_Child) :
  Forall (nestedRule (fun set =>
            forall root, Main.mapUserSet_nonnil set = Ok (Some root) ->
                         Forall exclusiveShape (UserSet_nodes root))) cs ->
  forall sets out,
    Main.mapUserSetChild_loop Main.mapUserSet_nonnil cs sets = Ok out ->
    Forall (nestedNode (fun n => Forall exclusiveShape (UserSet_nodes n))) sets ->
    Forall (nestedNode (fun n => Forall exclusiveShape (UserSet_nodes n))) out.
Proof.
  induction 1 as [| child cs Hchild _ IH]; intros sets out Hloop Hsets.
  - simpl in Hloop. injection Hloop as <-. exact Hsets.
  - rewrite mapUserSetChild_loop_body in Hloop.
    apply bind_Ok_inv in Hloop as (sets' & Hbody & Hrest).
    apply (IH sets' out Hrest).
    unfold Main.mapUserSetChild_body in Hbody.
    destruct child as [| | computed | tuple | set |]; simpl in Hbody;
      try (injection Hbody as <-; exact Hsets).
    + injection Hbody as <-. apply Forall_app; split; [exact Hsets |].
      constructor; [| constructor]. simpl.
      constructor; [| constructor].
      apply (leaf_exclusiveShape (corev1.ComputedUserset_Relation computed) EmptyString).
    + destruct (corev1.TupleToUserset_Tupleset_ tuple) as [t |]; [| discriminate].
      destruct (corev1.TupleToUserset_ComputedUserset tuple) as [c |]; [| discriminate].
      simpl in Hbody. injection Hbody as <-.
      apply Forall_app; split; [exact Hsets |].
      constructor; [| constructor]. simpl.
      constructor; [| constructor].
      apply (leaf_exclusiveShape (corev1.Tupleset_Relation t) (corev1.ComputedUserset_Relation c)).
    + simpl in Hchild.
      destruct (Main.mapUserSet_nonnil set) as [mapped | |] eqn:Hset; try discriminate.
      simpl in Hbody. injection Hbody as <-.
      apply Forall_app; split; [exact Hsets |].
      constructor; [| constructor].
      destruct mapped as [root |]; simpl; auto.
Qed.

Lemma mapUserSet_nonnil_shapes (userset : corev1.UsersetRewrite) :
  forall root, Main.mapUserSet_nonnil userset = Ok (Some root) ->
               Forall exclusiveShape (UserSet_nodes root).
Proof.
  induction userset as [| s IH | s IH | s IH] using UsersetRewrite_nested_ind;
    intros root Hroot; simpl in Hroot; try discriminate;
    apply bind_Ok_inv in Hroot as (children & Hloop & Hroot);
    injection Hroot as <-;
    (constructor;
     [ apply operator_exclusiveShape; auto
     | apply UserSet_nodes_children_Forall;
       apply (mapUserSetChild_loop_shapes _ IH [] children Hloop); constructor ]).
Qed.

(** C10, as the code has it.  Every node of a tree that the rewrite-tree
    mapper returns has exactly one of two shapes: an operator node (one
    of the three operator names; relation and permission empty) or a
    leaf (operation and children empty), never both. *)
Theorem mapUserSet_nodes_have_one_shape
    (userset : option corev1.UsersetRewrite) (root node : Main.UserSet)
    (Hroot : Main.mapUserSet userset = Ok (Some root))
    (Hnode : In node (UserSet_nodes root)) :
  exclusiveShape node.
Proof.
  destruct userset as [userset |]; [| discriminate].
  pose proof (mapUserSet_nonnil_shapes userset root Hroot) as Hall.
  rewrite List.Forall_forall in Hall. apply Hall, Hnode.
Qed.

Lemma mapUserSet_nodes_have_one_shape_witness :
  let rule :=
    corev1.Rewrite_Intersection
      (corev1.Build_SetOperation
         [corev1.Child_ComputedUserset (corev1.Build_ComputedUserset "viewer");
          corev1.Child_UsersetRewrite (corev1.Rewrite_Union (corev1.Build_SetOperation []))]) in
  let inner := Main.Build_UserSet "union" EmptyString EmptyString [] in
  let root := Main.Build_UserSet "intersection" EmptyString EmptyString
                [Some (leaf "viewer" EmptyString); Some inner] in
  Main.mapUserSet (Some rule) = Ok (Some root) /\
  In inner (UserSet_nodes root) /\
  exclusiveShape inner.
Proof.
  intros rule inner root.
  assert (Hroot : Main.mapUserSet (Some rule) = Ok (Some root)) by reflexivity.
  assert (Hnode : In inner (UserSet_nodes root)) by (simpl; auto).
  split; [exact Hroot |]. split; [exact Hnode |].
  exact (mapUserSet_nodes_have_one_shape (Some rule) root inner Hroot Hnode).
Defined.

(** An operator without children maps to a node whose operation is set
    and whose children are empty: neither an operator node with children
    populated nor a leaf with its relation populated. *)
Lemma mapUserSet_operator_without_children :
  let node := Main.Build_UserSet "union" EmptyString EmptyString [] in
  Main.mapUserSet (Some (corev1.Rewrite_Union (corev1.Build_SetOperation []))) = Ok (Some node) /\
  In node (UserSet_nodes node) /\
  ~ (populatedOperatorNode node \/ populatedLeafNode node).
Proof.
  intros node. split; [reflexivity |]. split; [left; reflexivity |].
  intros [(_ & Hchildren & _) | (Hrelation & _)].
  - apply Hchildren. reflexivity.
  - apply Hrelation. reflexivity.
Qed.

(** A rule whose tuple-to-userset nodes are complete is mapped without
    a panic. *)
Lemma mapUserSetChild_loop_ok (cs : list corev1.SetOperation_Child) :
  Forall (nestedRule (fun set =>
            tuplesComplete set = true ->
            exists mapped, Main.mapUserSet_nonnil set = Ok mapped)) cs ->
  tuplesComplete_children tuplesComplete cs = true ->
  forall sets, exists out,
    Main.mapUserSetChild_loop Main.mapUserSet_nonnil cs sets = Ok out.
Proof.
  induction 1 as [| child cs Hchild _ IH]; intros Hcomplete sets.
  - simpl. eauto.
  - simpl in Hcomplete. apply andb_prop in Hcomplete as [Hhead Htail].
    specialize (IH Htail).
    destruct child as [| | computed | tuple | set |]; simpl; try apply IH.
    + unfold tupleComplete in Hhead.
      destruct (corev1.TupleToUserset_Tupleset_ tuple); [| discriminate].
      destruct (corev1.TupleToUserset_ComputedUserset tuple); [| discriminate].
      simpl. apply IH.
    + simpl in Hchild. destruct (Hchild Hhead) as [mapped ->]. simpl. apply IH.
Qed.

Lemma mapUserSet_nonnil_ok (userset : corev1.UsersetRewrite) :
  tuplesComplete userset = true ->
  exists mapped, Main.mapUserSet_nonnil userset = Ok mapped.
Proof.
  induction userset as [| s IH | s IH | s IH] using UsersetRewrite_nested_ind;
    simpl; intros Hcomplete; eauto;
    destruct (mapUserSetChild_loop_ok _ IH Hcomplete []) as [out ->]; simpl; eauto.
Qed.

(** ** The definition mapper *)

Lemma Index_slash_cons (c : ascii) (s : string) :
  Index (String c s) "/" =
  if Ascii.eqb "/" c then Some 0 else option_map S (Index s "/").
Proof.
  change (Index (String c s) "/")
    with (if Ascii.eqb "/" c && true then Some 0 else option_map S (Index s "/")).
  rewrite andb_true_r. reflexivity.
Qed.

Lemma Index_first (a b : string) :
  Index a "/" = None -> Index (a +:+ "/" +:+ b) "/" = Some (String.length a).
Proof.
  induction a as [| c a IH]; intros Hnone; [reflexivity |].
  change (String c a +:+ "/" +:+ b) with (String c (a +:+ "/" +:+ b)).
  rewrite Index_slash_cons in *.
  destruct (Ascii.eqb "/" c); [discriminate |].
  destruct (Index a "/") as [i |] eqn:Hi; [discriminate |].
  rewrite IH; reflexivity.
Qed.

Lemma string_take_app (a b : string) : string_take (String.length a) (a +:+ b) = a.
Proof. induction a as [| c a IH]; simpl; [destruct b; reflexivity | f_equal; exact IH]. Qed.

Lemma string_drop_app (a b : string) : string_drop (String.length a) (a +:+ b) = b.
Proof. induction a as [| c a IH]; simpl; [destruct b; reflexivity | exact IH]. Qed.

Lemma length_append (a b : string) :
  String.length (a +:+ b) = String.length a + String.length b.
Proof. induction a as [| c a IH]; simpl; [reflexivity | f_equal; exact IH]. Qed.

Lemma string_drop_separator (a b : string) :
  string_drop (String.length a + String.length "/") (a +:+ "/" +:+ b) = b.
Proof. induction a as [| c a IH]; simpl; [reflexivity | exact IH]. Qed.

(** [SplitN(s, "/", 2)] cuts at the first separator, and only there. *)
Lemma SplitN_first_separator (a b : string) :
  Index a "/" = None -> SplitN (a +:+ "/" +:+ b) "/" 2 = [a; b].
Proof.
  intros Hnone. unfold SplitN.
  assert (Hlen : Nat.min 2 (String.length (a +:+ "/" +:+ b) + 1) - 1 = 1).
  { rewrite !length_append. change (String.length "/") with 1. lia. }
  rewrite Hlen. cbn [genSplit_loop]. rewrite (Index_first a b Hnone).
  rewrite string_take_app, string_drop_separator. reflexivity.
Qed.

Lemma SplitN_no_separator (s : string) :
  Index s "/" = None -> SplitN s "/" 2 = [s].
Proof.
  intros Hnone. unfold SplitN.
  destruct (Nat.min 2 (String.length s + 1) - 1); simpl; [reflexivity |].
  rewrite Hnone. reflexivity.
Qed.

Lemma Index_Some_split (s : string) :
  forall i, Index s "/" = Some i ->
            exists a b, s = a +:+ "/" +:+ b /\ Index a "/" = None.
Proof.
  induction s as [| c s IH]; intros i Hi; [discriminate |].
  rewrite Index_slash_cons in Hi. destruct (Ascii.eqb "/" c) eqn:Hc.
  - apply Ascii.eqb_eq in Hc as <-.
    exists EmptyString, s. split; reflexivity.
  - destruct (Index s "/") as [j |] eqn:Hj; [| discriminate].
    destruct (IH j eq_refl) as (a & b & -> & Ha).
    exists (String c a), b. split; [reflexivity |].
    rewrite Index_slash_cons, Hc, Ha. reflexivity.
Qed.

(** The split of [mapDefinition] never panics and follows the rule. *)
Lemma namespaceAndName_SplitN (qualified : string) :
  exists namespace name,
    namespaceAndName (SplitN qualified "/" 2) = Ok (namespace, name) /\
    SplitRule qualified namespace name.
Proof.
  assert (Hrule : forall namespace name,
             namespaceAndName (SplitN qualified "/" 2) = Ok (namespace, name) ->
             SplitRule qualified namespace name).
  { intros namespace name Hnames.
    assert (Hfirst : forall a b, qualified = a +:+ "/" +:+ b -> Index a "/" = None ->
                                 namespace = a /\ name = b).
    { intros a b -> Ha. rewrite (SplitN_first_separator a b Ha) in Hnames.
      injection Hnames as <- <-. split; reflexivity. }
    assert (Hnone : Index qualified "/" = None ->
                    namespace = EmptyString /\ name = qualified).
    { intros Hq. rewrite (SplitN_no_separator qualified Hq) in Hnames.
      injection Hnames as <- <-. split; reflexivity. }
    split; [exact Hfirst |]. split; [exact Hnone |].
    split; [intros Hq; apply (Hfirst "a" "b"); [exact Hq | reflexivity] |].
    split; [intros Hq; rewrite Hq in *; apply Hnone; reflexivity |].
    intros Hq; apply (Hfirst "a" "b/c"); [exact Hq | reflexivity]. }
  destruct (Index qualified "/") as [i |] eqn:Hi.
  - destruct (Index_Some_split qualified i Hi) as (a & b & -> & Ha).
    exists a, b. split; [| apply Hrule]; rewrite (SplitN_first_separator a b Ha); reflexivity.
  - exists EmptyString, qualified.
    split; [| apply Hrule]; rewrite (SplitN_no_separator qualified Hi); reflexivity.
Qed.

Lemma Main_mapRelation_ok kind (r : corev1.Relation) :
  relationStructureOk kind r = true -> isRelation kind r = true ->
  exists out, Main.mapRelation r = Ok out.
Proof.
  unfold relationStructureOk, isRelation. intros Hok Hkind.
  apply andb_prop in Hok as [Hdoc Hkindok].
  destruct (kind r); try discriminate.
  unfold Main.mapRelation.
  destruct (corev1.Relation_TypeInformation r); [| discriminate]. simpl.
  destruct (Main_getMetadataComments_ok _ Hdoc) as [c ->]. simpl. eauto.
Qed.

Lemma Main_mapPermission_ok kind (r : corev1.Relation) :
  relationStructureOk kind r = true -> isPermission kind r = true ->
  exists out, Main.mapPermission r = Ok out.
Proof.
  unfold relationStructureOk, isPermission. intros Hok Hkind.
  apply andb_prop in Hok as [Hdoc Hkindok].
  destruct (kind r); try discriminate.
  unfold Main.mapPermission.
  assert (Hset : exists mapped,
             Main.mapUserSet (corev1.Relation_UsersetRewrite r) = Ok mapped).
  { destruct (corev1.Relation_UsersetRewrite r) as [userset |]; simpl; eauto.
    apply mapUserSet_nonnil_ok, Hkindok. }
  destruct Hset as [mapped ->]. simpl.
  destruct (Main_getMetadataComments_ok _ Hdoc) as [c ->]. simpl. eauto.
Qed.

Lemma MapSchema_mapRelation_ok kind (r : corev1.Relation) :
  relationStructureOk kind r = true -> isRelation kind r = true ->
  exists out, MapSchema.mapRelation r = Ok out.
Proof.
  unfold relationStructureOk, isRelation. intros Hok Hkind.
  apply andb_prop in Hok as [Hdoc Hkindok].
  destruct (kind r); try discriminate.
  unfold MapSchema.mapRelation.
  destruct (corev1.Relation_TypeInformation r); [| discriminate]. simpl.
  destruct (MapSchema_getMetadataComments_ok _ Hdoc) as [c ->]. simpl. eauto.
Qed.

Lemma MapSchema_mapPermission_ok kind (r : corev1.Relation) :
  relationStructureOk kind r = true -> isPermission kind r = true ->
  exists out, MapSchema.mapPermission r = Ok out.
Proof.
  unfold relationStructureOk. intros Hok _.
  apply andb_prop in Hok as [Hdoc _].
  unfold MapSchema.mapPermission.
  destruct (MapSchema_getMetadataComments_ok _ Hdoc) as [c ->]. simpl. eauto.
Qed.

Lemma kinds_exclusive kind (r : corev1.Relation) :
  isPermission kind r || isRelation kind r = true ->
  isRelation kind r = negb (isPermission kind r).
Proof. unfold isPermission, isRelation. destruct (kind r); simpl; congruence. Qed.

Lemma filter_kinds_length kind (rs : list corev1.Relation) :
  forallb (fun r => isPermission kind r || isRelation kind r) rs = true ->
  length (List.filter (isRelation kind) rs) + length (List.filter (isPermission kind) rs)
  = length rs.
Proof.
  induction rs as [| r rs IH]; simpl; intros Hall; [reflexivity |].
  apply andb_prop in Hall as [Hr Hrs]. specialize (IH Hrs).
  rewrite (kinds_exclusive kind r Hr).
  destruct (isPermission kind r); simpl; lia.
Qed.

(** The loop of [mapDefinition] on relations that are all classified:
    each goes to the end of its group. *)
Lemma Main_mapDefinition_loop_groups kind (rs : list corev1.Relation) :
  forallb (relationStructureOk kind) rs = true ->
  forallb (fun r => isPermission kind r || isRelation kind r) rs = true ->
  forall relations permissions, exists rels perms,
    Main.mapDefinition_loop kind rs relations permissions
    = Ok (relations ++ rels, permissions ++ perms) /\
    Forall2 (fun r out => Main.mapRelation r = Ok out) (List.filter (isRelation kind) rs) rels /\
    Forall2 (fun r out => Main.mapPermission r = Ok out) (List.filter (isPermission kind) rs) perms.
Proof.
  induction rs as [| r rs IH]; intros Hok Hall relations permissions.
  - exists [], []. rewrite !app_nil_r. repeat split; constructor.
  - cbn [forallb] in Hok, Hall.
    apply andb_prop in Hok as [Hr Hrs]. apply andb_prop in Hall as [Hkind Hkinds].
    specialize (IH Hrs Hkinds).
    pose proof (kinds_exclusive kind r Hkind) as Hexcl.
    cbn [Main.mapDefinition_loop List.filter].
    fold (isPermission kind r). fold (isRelation kind r).
    destruct (isPermission kind r) eqn:Hperm; simpl in Hexcl; rewrite Hexcl.
    + destruct (Main_mapPermission_ok kind r Hr Hperm) as [p Hp]. rewrite Hp. cbn [bind].
      destruct (IH relations (permissions ++ [p])) as (rels & perms & Hloop & Hrels & Hperms).
      exists rels, (p :: perms). rewrite <- app_assoc in Hloop.
      split; [exact Hloop |]. split; [exact Hrels |]. constructor; assumption.
    + destruct (Main_mapRelation_ok kind r Hr Hexcl) as [rel Hrel]. rewrite Hrel. cbn [bind].
      destruct (IH (relations ++ [rel]) permissions) as (rels & perms & Hloop & Hrels & Hperms).
      exists (rel :: rels), perms. rewrite <- app_assoc in Hloop.
      split; [exact Hloop |]. split; [| exact Hperms]. constructor; assumption.
Qed.

(** The loop on a list with a relation that is neither: it returns the
    error of the first such relation. *)
Lemma Main_mapDefinition_loop_error kind (rs : list corev1.Relation) :
  forallb (relationStructureOk kind) rs = true ->
  existsb (fun r => negb (isPermission kind r || isRelation kind r)) rs = true ->
  exists r,
    In r rs /\ isPermission kind r = false /\ isRelation kind r = false /\
    forall relations permissions,
      Main.mapDefinition_loop kind rs relations permissions
      = Err (UnexpectedRelation (corev1.Relation_Name r)).
Proof.
  induction rs as [| r rs IH]; intros Hok Hbad; [discriminate |].
  cbn [forallb existsb] in Hok, Hbad.
  apply andb_prop in Hok as [Hr Hrs].
  destruct (isPermission kind r || isRelation kind r) eqn:Hkind.
  - simpl in Hbad. destruct (IH Hrs Hbad) as (bad & Hin & Hnp & Hnr & Hloop).
    exists bad. split; [right; exact Hin |]. split; [exact Hnp |]. split; [exact Hnr |].
    intros relations permissions.
    pose proof (kinds_exclusive kind r Hkind) as Hexcl.
    cbn [Main.mapDefinition_loop].
    fold (isPermission kind r). fold (isRelation kind r).
    destruct (isPermission kind r) eqn:Hperm; simpl in Hexcl; rewrite ?Hexcl.
    + destruct (Main_mapPermission_ok kind r Hr Hperm) as [p ->]. apply Hloop.
    + destruct (Main_mapRelation_ok kind r Hr Hexcl) as [rel ->]. apply Hloop.
  - apply orb_false_elim in Hkind as [Hnp Hnr].
    exists r. split; [left; reflexivity |]. split; [exact Hnp |]. split; [exact Hnr |].
    intros relations permissions. cbn [Main.mapDefinition_loop].
    fold (isPermission kind r). fold (isRelation kind r).
    rewrite Hnp, Hnr. reflexivity.
Qed.

(** [mapDefinition] on a well-formed definition. *)
Lemma Main_mapDefinition_wf kind (def : corev1.NamespaceDefinition) :
  wellFormedDefinition kind def = true ->
  exists d,
    Main.mapDefinition kind def = Ok d /\
    Partitioned kind Main.mapRelation Main.mapPermission
      (corev1.NamespaceDefinition_Relation def)
      (Main.Definition_Relations d) (Main.Definition_Permissions d) /\
    SplitRule (corev1.NamespaceDefinition_Name def)
      (Main.Definition_Namespace d) (Main.Definition_Name d).
Proof.
  unfold wellFormedDefinition, definitionStructureOk. intros Hwf.
  apply andb_prop in Hwf as [Hstruct Hkinds].
  apply andb_prop in Hstruct as [Hrels Hdoc].
  destruct (Main_mapDefinition_loop_groups kind _ Hrels Hkinds [] [])
    as (rels & perms & Hloop & Hrel & Hperm).
  destruct (namespaceAndName_SplitN (corev1.NamespaceDefinition_Name def))
    as (namespace & name & Hnames & Hrule).
  destruct (Main_getMetadataComments_ok _ Hdoc) as [comment Hcomment].
  unfold Main.mapDefinition. rewrite Hloop. cbn [bind app].
  rewrite Hnames. cbn [bind]. rewrite Hcomment. cbn [bind fst snd].
  eexists. split; [reflexivity |]. cbn.
  split; [| exact Hrule].
  split; [exact Hrel |]. split; [exact Hperm |].
  split.
  - intros r Hin. apply kinds_exclusive.
    rewrite List.forallb_forall in Hkinds. apply Hkinds, Hin.
  - apply Forall2_length in Hrel, Hperm. rewrite <- Hrel, <- Hperm.
    apply filter_kinds_length, Hkinds.
Qed.

(** [mapDefinition] on a structurally valid definition with a relation
    that is neither. *)
Lemma Main_mapDefinition_error kind (def : corev1.NamespaceDefinition) :
  definitionStructureOk kind def = true ->
  hasUnclassified kind def = true ->
  exists r,
    In r (corev1.NamespaceDefinition_Relation def) /\
    isPermission kind r = false /\ isRelation kind r = false /\
    Main.mapDefinition kind def = Err (UnexpectedRelation (corev1.Relation_Name r)).
Proof.
  unfold definitionStructureOk, hasUnclassified. intros Hstruct Hbad.
  apply andb_prop in Hstruct as [Hrels _].
  destruct (Main_mapDefinition_loop_error kind _ Hrels Hbad)
    as (r & Hin & Hnp & Hnr & Hloop).
  exists r. repeat (split; [assumption |]).
  unfold Main.mapDefinition. rewrite Hloop. reflexivity.
Qed.

(** The loop of [mapDefinition] on relations that are all classified:
    each goes to the end of its group. *)
Lemma MapSchema_mapDefinition_loop_groups kind (rs : list corev1.Relation) :
  forallb (relationStructureOk kind) rs = true ->
  forallb (fun r => isPermission kind r || isRelation kind r) rs = true ->
  forall relations permissions, exists rels perms,
    MapSchema.mapDefinition_loop kind rs relations permissions
    = Ok (relations ++ rels, permissions ++ perms) /\
    Forall2 (fun r out => MapSchema.mapRelation r = Ok out) (List.filter (isRelation kind) rs) rels /\
    Forall2 (fun r out => MapSchema.mapPermission r = Ok out) (List.filter (isPermission kind) rs) perms.
Proof.
  induction rs as [| r rs IH]; intros Hok Hall relations permissions.
  - exists [], []. rewrite !app_nil_r. repeat split; constructor.
  - cbn [forallb] in Hok, Hall.
    apply andb_prop in Hok as [Hr Hrs]. apply andb_prop in Hall as [Hkind Hkinds].
    specialize (IH Hrs Hkinds).
    pose proof (kinds_exclusive kind r Hkind) as Hexcl.
    cbn [MapSchema.mapDefinition_loop List.filter].
    fold (isPermission kind r). fold (isRelation kind r).
    destruct (isPermission kind r) eqn:Hperm; simpl in Hexcl; rewrite Hexcl.
    + destruct (MapSchema_mapPermission_ok kind r Hr Hperm) as [p Hp]. rewrite Hp. cbn [bind].
      destruct (IH relations (permissions ++ [p])) as (rels & perms & Hloop & Hrels & Hperms).
      exists rels, (p :: perms). rewrite <- app_assoc in Hloop.
      split; [exact Hloop |]. split; [exact Hrels |]. constructor; assumption.
    + destruct (MapSchema_mapRelation_ok kind r Hr Hexcl) as [rel Hrel]. rewrite Hrel. cbn [bind].
      destruct (IH (relations ++ [rel]) permissions) as (rels & perms & Hloop & Hrels & Hperms).
      exists (rel :: rels), perms. rewrite <- app_assoc in Hloop.
      split; [exact Hloop |]. split; [| exact Hperms]. constructor; assumption.
Qed.

(** The loop on a list with a relation that is neither: it returns the
    error of the first such relation. *)
Lemma MapSchema_mapDefinition_loop_error kind (rs : list corev1.Relation) :
  forallb (relationStructureOk kind) rs = true ->
  existsb (fun r => negb (isPermission kind r || isRelation kind r)) rs = true ->
  exists r,
    In r rs /\ isPermission kind r = false /\ isRelation kind r = false /\
    forall relations permissions,
      MapSchema.mapDefinition_loop kind rs relations permissions
      = Err (UnexpectedRelation (corev1.Relation_Name r)).
Proof.
  induction rs as [| r rs IH]; intros Hok Hbad; [discriminate |].
  cbn [forallb existsb] in Hok, Hbad.
  apply andb_prop in Hok as [Hr Hrs].
  destruct (isPermission kind r || isRelation kind r) eqn:Hkind.
  - simpl in Hbad. destruct (IH Hrs Hbad) as (bad & Hin & Hnp & Hnr & Hloop).
    exists bad. split; [right; exact Hin |]. split; [exact Hnp |]. split; [exact Hnr |].
    intros relations permissions.
    pose proof (kinds_exclusive kind r Hkind) as Hexcl.
    cbn [MapSchema.mapDefinition_loop].
    fold (isPermission kind r). fold (isRelation kind r).
    destruct (isPermission kind r) eqn:Hperm; simpl in Hexcl; rewrite ?Hexcl.
    + destruct (MapSchema_mapPermission_ok kind r Hr Hperm) as [p ->]. apply Hloop.
    + destruct (MapSchema_mapRelation_ok kind r Hr Hexcl) as [rel ->]. apply Hloop.
  - apply orb_false_elim in Hkind as [Hnp Hnr].
    exists r. split; [left; reflexivity |]. split; [exact Hnp |]. split; [exact Hnr |].
    intros relations permissions. cbn [MapSchema.mapDefinition_loop].
    fold (isPermission kind r). fold (isRelation kind r).
    rewrite Hnp, Hnr. reflexivity.
Qed.

(** [mapDefinition] on a well-formed definition. *)
Lemma MapSchema_mapDefinition_wf kind (def : corev1.NamespaceDefinition) :
  wellFormedDefinition kind def = true ->
  exists d,
    MapSchema.mapDefinition kind def = Ok d /\
    Partitioned kind MapSchema.mapRelation MapSchema.mapPermission
      (corev1.NamespaceDefinition_Relation def)
      (MapSchema.Definition_Relations d) (MapSchema.Definition_Permissions d) /\
    SplitRule (corev1.NamespaceDefinition_Name def)
      (MapSchema.Definition_Namespace d) (MapSchema.Definition_Name d).
Proof.
  unfold wellFormedDefinition, definitionStructureOk. intros Hwf.
  apply andb_prop in Hwf as [Hstruct Hkinds].
  apply andb_prop in Hstruct as [Hrels Hdoc].
  destruct (MapSchema_mapDefinition_loop_groups kind _ Hrels Hkinds [] [])
    as (rels & perms & Hloop & Hrel & Hperm).
  destruct (namespaceAndName_SplitN (corev1.NamespaceDefinition_Name def))
    as (namespace & name & Hnames & Hrule).
  destruct (MapSchema_getMetadataComments_ok _ Hdoc) as [comment Hcomment].
  unfold MapSchema.mapDefinition. rewrite Hloop. cbn [bind app].
  rewrite Hnames. cbn [bind]. rewrite Hcomment. cbn [bind fst snd].
  eexists. split; [reflexivity |]. cbn.
  split; [| exact Hrule].
  split; [exact Hrel |]. split; [exact Hperm |].
  split.
  - intros r Hin. apply kinds_exclusive.
    rewrite List.forallb_forall in Hkinds. apply Hkinds, Hin.
  - apply Forall2_length in Hrel, Hperm. rewrite <- Hrel, <- Hperm.
    apply filter_kinds_length, Hkinds.
Qed.

(** [mapDefinition] on a structurally valid definition with a relation
    that is neither. *)
Lemma MapSchema_mapDefinition_error kind (def : corev1.NamespaceDefinition) :
  definitionStructureOk kind def = true ->
  hasUnclassified kind def = true ->
  exists r,
    In r (corev1.NamespaceDefinition_Relation def) /\
    isPermission kind r = false /\ isRelation kind r = false /\
    MapSchema.mapDefinition kind def = Err (UnexpectedRelation (corev1.Relation_Name r)).
Proof.
  unfold definitionStructureOk, hasUnclassified. intros Hstruct Hbad.
  apply andb_prop in Hstruct as [Hrels _].
  destruct (MapSchema_mapDefinition_loop_error kind _ Hrels Hbad)
    as (r & Hin & Hnp & Hnr & Hloop).
  exists r. repeat (split; [assumption |]).
  unfold MapSchema.mapDefinition. rewrite Hloop. reflexivity.
Qed.

(** C6.  For a well-formed object-type definition the definition mapper
    of either file returns a definition, and the relations of the source
    are partitioned over its two groups: the storage relations, in their
    order, are the [relations]; the permissions, in their order, are
    the [permissions]; every relation is mapped once, into one group. *)
Theorem mapDefinition_partitions_relations
    (GetRelationKind : corev1.Relation -> implv1.RelationMetadata_RelationKind)
    (def : corev1.NamespaceDefinition)
    (Hwf : wellFormedDefinition GetRelationKind def = true) :
  (exists d,
     Main.mapDefinition GetRelationKind def = Ok d /\
     Partitioned GetRelationKind Main.mapRelation Main.mapPermission
       (corev1.NamespaceDefinition_Relation def)
       (Main.Definition_Relations d) (Main.Definition_Permissions d)) /\
  (exists d,
     MapSchema.mapDefinition GetRelationKind def = Ok d /\
     Partitioned GetRelationKind MapSchema.mapRelation MapSchema.mapPermission
       (corev1.NamespaceDefinition_Relation def)
       (MapSchema.Definition_Relations d) (MapSchema.Definition_Permissions d)).
Proof.
  split.
  - destruct (Main_mapDefinition_wf GetRelationKind def Hwf) as (d & Hd & Hpart & _). eauto.
  - destruct (MapSchema_mapDefinition_wf GetRelationKind def Hwf) as (d & Hd & Hpart & _). eauto.
Qed.

(** C7.  For a well-formed object-type definition the definition mapper
    of either file splits the qualified name at the first separator
    only: [a/b] gives namespace [a] and name [b], [b] gives the empty
    namespace and name [b], [a/b/c] gives namespace [a] and name
    [b/c]. *)
Theorem mapDefinition_splits_at_first_separator
    (GetRelationKind : corev1.Relation -> implv1.RelationMetadata_RelationKind)
    (def : corev1.NamespaceDefinition)
    (Hwf : wellFormedDefinition GetRelationKind def = true) :
  (exists d,
     Main.mapDefinition GetRelationKind def = Ok d /\
     SplitRule (corev1.NamespaceDefinition_Name def)
       (Main.Definition_Namespace d) (Main.Definition_Name d)) /\
  (exists d,
     MapSchema.mapDefinition GetRelationKind def = Ok d /\
     SplitRule (corev1.NamespaceDefinition_Name def)
       (MapSchema.Definition_Namespace d) (MapSchema.Definition_Name d)).
Proof.
  split.
  - destruct (Main_mapDefinition_wf GetRelationKind def Hwf) as (d & Hd & _ & Hrule). eauto.
  - destruct (MapSchema_mapDefinition_wf GetRelationKind def Hwf) as (d & Hd & _ & Hrule). eauto.
Qed.

Lemma WriteSchemaTo_definitions_error
    (GetRelationKind : corev1.Relation -> implv1.RelationMetadata_RelationKind)
    (defs : list corev1.NamespaceDefinition) :
  forallb (definitionStructureOk GetRelationKind) defs = true ->
  existsb (hasUnclassified GetRelationKind) defs = true ->
  exists def r,
    In def defs /\ In r (corev1.NamespaceDefinition_Relation def) /\
    isPermission GetRelationKind r = false /\ isRelation GetRelationKind r = false /\
    forall definitions,
      Main.WriteSchemaTo_definitions GetRelationKind defs definitions
      = Err (FailedToExport (corev1.NamespaceDefinition_Name def)
                            (UnexpectedRelation (corev1.Relation_Name r))).
Proof.
  induction defs as [| def defs IH]; intros Hvalid Hbad; [discriminate |].
  cbn [forallb existsb] in Hvalid, Hbad.
  apply andb_prop in Hvalid as [Hdef Hdefs].
  destruct (hasUnclassified GetRelationKind def) eqn:Hun.
  - destruct (Main_mapDefinition_error GetRelationKind def Hdef Hun)
      as (r & Hin & Hnp & Hnr & Herr).
    exists def, r. split; [left; reflexivity |]. repeat (split; [assumption |]).
    intros definitions. cbn [Main.WriteSchemaTo_definitions]. rewrite Herr. reflexivity.
  - simpl in Hbad. destruct (IH Hdefs Hbad) as (bad & r & Hin & Hr & Hnp & Hnr & Hloop).
    exists bad, r. split; [right; exact Hin |]. repeat (split; [assumption |]).
    intros definitions. cbn [Main.WriteSchemaTo_definitions].
    assert (Hwf : wellFormedDefinition GetRelationKind def = true).
    { unfold wellFormedDefinition. rewrite Hdef. simpl.
      unfold hasUnclassified in Hun.
      apply forallb_forall. intros x Hx.
      destruct (isPermission GetRelationKind x || isRelation GetRelationKind x) eqn:Hk;
        [reflexivity |].
      assert (Hex : existsb (fun r => negb (isPermission GetRelationKind r
                                            || isRelation GetRelationKind r))
                            (corev1.NamespaceDefinition_Relation def) = true).
      { apply existsb_exists. exists x. rewrite Hk. split; [exact Hx | reflexivity]. }
      congruence. }
    destruct (Main_mapDefinition_wf GetRelationKind def Hwf) as (d & -> & _).
    apply Hloop.
Qed.

(** Whatever else the schema holds, a definition with a relation that is
    neither is never mapped to a definition. *)
Lemma Main_mapDefinition_loop_never_ok
    (GetRelationKind : corev1.Relation -> implv1.RelationMetadata_RelationKind)
    (rs : list corev1.Relation) :
  existsb (fun r => negb (isPermission GetRelationKind r || isRelation GetRelationKind r)) rs
  = true ->
  forall relations permissions groups,
    Main.mapDefinition_loop GetRelationKind rs relations permissions <> Ok groups.
Proof.
  induction rs as [| r rs IH]; intros Hbad relations permissions groups; [discriminate |].
  cbn [existsb] in Hbad. cbn [Main.mapDefinition_loop].
  fold (isPermission GetRelationKind r). fold (isRelation GetRelationKind r).
  destruct (isPermission GetRelationKind r); simpl in Hbad.
  - destruct (Main.mapPermission r); simpl; try discriminate. apply IH, Hbad.
  - destruct (isRelation GetRelationKind r); simpl in Hbad; [| discriminate].
    destruct (Main.mapRelation r); simpl; try discriminate. apply IH, Hbad.
Qed.

Lemma Main_mapDefinition_never_ok
    (GetRelationKind : corev1.Relation -> implv1.RelationMetadata_RelationKind)
    (def : corev1.NamespaceDefinition) :
  hasUnclassified GetRelationKind def = true ->
  forall d, Main.mapDefinition GetRelationKind def <> Ok d.
Proof.
  intros Hbad d Hd. unfold Main.mapDefinition in Hd.
  apply bind_Ok_inv in Hd as (groups & Hloop & _).
  exact (Main_mapDefinition_loop_never_ok GetRelationKind _ Hbad [] [] groups Hloop).
Qed.

Lemma WriteSchemaTo_definitions_never_ok
    (GetRelationKind : corev1.Relation -> implv1.RelationMetadata_RelationKind)
    (defs : list corev1.NamespaceDefinition) :
  existsb (hasUnclassified GetRelationKind) defs = true ->
  forall definitions out,
    Main.WriteSchemaTo_definitions GetRelationKind defs definitions <> Ok out.
Proof.
  induction defs as [| def defs IH]; intros Hbad definitions out; [discriminate |].
  cbn [existsb] in Hbad. cbn [Main.WriteSchemaTo_definitions].
  destruct (Main.mapDefinition GetRelationKind def) as [d | e | p] eqn:Hdef;
    try discriminate.
  destruct (hasUnclassified GetRelationKind def) eqn:Hun.
  - destruct (Main_mapDefinition_never_ok GetRelationKind def Hun d Hdef).
  - apply IH, Hbad.
Qed.

(** C5.  In a compiled schema with a relation that is neither a storage
    relation nor a permission, no definition with such a relation is
    mapped to a definition, and the document assembler aborts without
    a document: it returns no nil error and the writer is as it was.
    When the schema is structurally valid, the definition mapper returns
    the error of the relation, and the document assembler returns that
    error wrapped with the name of the definition. *)
Theorem WriteSchemaTo_aborts_on_unclassified_relation
    (GetRelationKind : corev1.Relation -> implv1.RelationMetadata_RelationKind)
    (rangeOrder : gmap string corev1.CaveatTypeReference
                  -> list (string * corev1.CaveatTypeReference))
    (json_Marshal : Main.Schema -> string + error)
    (W : Type) (Write : W -> string -> W * option error)
    (schema : corev1.CompiledSchema) (w : W)
    (Hbad : existsb (hasUnclassified GetRelationKind)
                    (corev1.ObjectDefinitions schema) = true) :
  (forall def d,
     hasUnclassified GetRelationKind def = true ->
     Main.mapDefinition GetRelationKind def <> Ok d) /\
  fst (Main.WriteSchemaTo GetRelationKind rangeOrder json_Marshal W Write schema w) = w /\
  snd (Main.WriteSchemaTo GetRelationKind rangeOrder json_Marshal W Write schema w) <> Ok tt /\
  (forallb (definitionStructureOk GetRelationKind) (corev1.ObjectDefinitions schema) = true ->
   (forall def,
      In def (corev1.ObjectDefinitions schema) ->
      hasUnclassified GetRelationKind def = true ->
      exists r,
        In r (corev1.NamespaceDefinition_Relation def) /\
        isPermission GetRelationKind r = false /\ isRelation GetRelationKind r = false /\
        Main.mapDefinition GetRelationKind def
        = Err (UnexpectedRelation (corev1.Relation_Name r))) /\
   (exists def r,
      In def (corev1.ObjectDefinitions schema) /\
      In r (corev1.NamespaceDefinition_Relation def) /\
      isPermission GetRelationKind r = false /\ isRelation GetRelationKind r = false /\
      Main.WriteSchemaTo GetRelationKind rangeOrder json_Marshal W Write schema w
      = (w, Err (FailedToExport (corev1.NamespaceDefinition_Name def)
                                (UnexpectedRelation (corev1.Relation_Name r)))))).
Proof.
  split; [intros def d Hun; apply Main_mapDefinition_never_ok, Hun |].
  assert (Habort :
            fst (Main.WriteSchemaTo GetRelationKind rangeOrder json_Marshal W Write schema w) = w /\
            snd (Main.WriteSchemaTo GetRelationKind rangeOrder json_Marshal W Write schema w)
            <> Ok tt).
  { unfold Main.WriteSchemaTo.
    pose proof (WriteSchemaTo_definitions_never_ok GetRelationKind _ Hbad []) as Hnever.
    destruct (Main.WriteSchemaTo_definitions GetRelationKind
                (corev1.ObjectDefinitions schema) []) as [definitions | e | p].
    - destruct (Hnever definitions eq_refl).
    - split; [reflexivity | discriminate].
    - split; [reflexivity | discriminate]. }
  destruct Habort as [Hwriter Herror].
  split; [exact Hwriter |]. split; [exact Herror |].
  intros Hvalid. split.
  - intros def Hin Hun. apply Main_mapDefinition_error; [| exact Hun].
    rewrite List.forallb_forall in Hvalid. apply Hvalid, Hin.
  - destruct (WriteSchemaTo_definitions_error GetRelationKind _ Hvalid Hbad)
      as (def & r & Hin & Hr & Hnp & Hnr & Hloop).
    exists def, r. repeat (split; [assumption |]).
    unfold Main.WriteSchemaTo. rewrite Hloop. reflexivity.
Qed.

Lemma mapDefinition_partitions_relations_witness :
  wellFormedDefinition exampleKind document = true /\
  exists d,
    Main.mapDefinition exampleKind document = Ok d /\
    Partitioned exampleKind Main.mapRelation Main.mapPermission
      [viewer; view] (Main.Definition_Relations d) (Main.Definition_Permissions d).
Proof.
  split; [reflexivity |].
  apply (mapDefinition_partitions_relations exampleKind document). reflexivity.
Defined.

Lemma mapDefinition_splits_at_first_separator_witness :
  let nested := corev1.Build_NamespaceDefinition "a/b/c" [] None in
  wellFormedDefinition exampleKind nested = true /\
  exists d,
    Main.mapDefinition exampleKind nested = Ok d /\
    Main.Definition_Namespace d = "a" /\ Main.Definition_Name d = "b/c".
Proof.
  intros nested. split; [reflexivity |].
  destruct (mapDefinition_splits_at_first_separator exampleKind nested eq_refl)
    as [(d & Hd & Hrule) _].
  exists d. split; [exact Hd |].
  apply Hrule. reflexivity.
Defined.

Lemma WriteSchemaTo_aborts_on_unclassified_relation_witness :
  existsb (hasUnclassified exampleKind) (corev1.ObjectDefinitions brokenSchema) = true /\
  forallb (definitionStructureOk exampleKind) (corev1.ObjectDefinitions brokenSchema) = true /\
  fst (Main.WriteSchemaTo exampleKind map_to_list encoded (list string) keep brokenSchema [])
  = [] /\
  exists def r,
    In def (corev1.ObjectDefinitions brokenSchema) /\
    In r (corev1.NamespaceDefinition_Relation def) /\
    isPermission exampleKind r = false /\ isRelation exampleKind r = false /\
    Main.WriteSchemaTo exampleKind map_to_list encoded (list string) keep brokenSchema []
    = ([], Err (FailedToExport (corev1.NamespaceDefinition_Name def)
                               (UnexpectedRelation (corev1.Relation_Name r)))).
Proof.
  split; [reflexivity |]. split; [reflexivity |].
  destruct (WriteSchemaTo_aborts_on_unclassified_relation
              exampleKind map_to_list encoded (list string) keep brokenSchema [] eq_refl)
    as (_ & Hwriter & _ & Hvalid).
  split; [exact Hwriter |].
  apply Hvalid. reflexivity.
Defined.

(** The schema with the definition of unknown kind, run: the error names
    the definition and the relation, and nothing is written. *)
Example WriteSchemaTo_brokenSchema :
  Main.WriteSchemaTo exampleKind map_to_list encoded (list string) keep brokenSchema []
  = ([], Err (FailedToExport "ns/folder" (UnexpectedRelation "owner"))).
Proof. reflexivity. Qed.

(** The definition [ns/document] of the specification, run. *)
Example mapDefinition_document :
  Main.mapDefinition exampleKind document
  = Ok {| Main.Definition_Name := "document";
          Main.Definition_Namespace := "ns";
          Main.Definition_Relations :=
            [ {| Main.Relation_Name := "viewer";
                 Main.Relation_Types :=
                   [ {| Main.RelationType_Type := "user";
                        Main.RelationType_Relation := EmptyString;
                        Main.RelationType_Caveat := EmptyString |} ];
                 Main.Relation_Comment := "// who may view" |} ];
          Main.Definition_Permissions :=
            [ {| Main.Permission_Name := "view";
                 Main.Permission_UserSet :=
                   Some (Main.Build_UserSet "union" EmptyString EmptyString
                           [Some (leaf "viewer" EmptyString)]);
                 Main.Permission_Comment := EmptyString |} ];
          Main.Definition_Comment := EmptyString |}.
Proof. reflexivity. Qed.

(** ** The caveat mapper *)




(** The caveat of the specification, ranged over in either order: the
    two declared names, each with its type, and nothing else. *)
Example mapCaveat_has_access :
  let ip := ("ip", corev1.Build_CaveatTypeReference "ipaddress") in
  let limit := ("limit", corev1.Build_CaveatTypeReference "int") in
  let expected : gmap string string :=
    list_to_map [("ip", "ipaddress"); ("limit", "int")] in
  MapSchema.mapCaveat has_access [ip; limit]
  = Ok (MapSchema.Build_Caveat "has_access" expected EmptyString) /\
  MapSchema.mapCaveat has_access [limit; ip]
  = Ok (MapSchema.Build_Caveat "has_access" expected EmptyString) /\
  size expected = 2.
Proof. vm_compute. repeat split. Qed.

(** [main.go] has another caveat mapper: its parameters are the list of
    the type names, without the parameter names, in the order in which
    the map happened to be ranged over. *)
Lemma Main_mapCaveat_parameters (caveat : corev1.CaveatDefinition)
    (order : list (string * corev1.CaveatTypeReference)) (out : Main.Caveat) :
  Main.mapCaveat caveat order = Ok out ->
  Main.Caveat_Parameters out = List.map (fun kt => corev1.TypeName (snd kt)) order.
Proof.
  unfold Main.mapCaveat. intros Hout.
  apply bind_Ok_inv in Hout as (comment & _ & Hout). injection Hout as <-.
  cbn [Main.Caveat_Parameters].
  assert (Hfold : forall acc,
             fold_left (fun parameters kt => parameters ++ [corev1.TypeName (snd kt)])
                       order acc
             = acc ++ List.map (fun kt => corev1.TypeName (snd kt)) order).
  { induction order as [| kt order IH]; intros acc; simpl.
    - rewrite app_nil_r. reflexivity.
    - rewrite IH, <- app_assoc. reflexivity. }
  apply (Hfold []).
Qed.

Example Main_mapCaveat_has_access :
  let ip := ("ip", corev1.Build_CaveatTypeReference "ipaddress") in
  let limit := ("limit", corev1.Build_CaveatTypeReference "int") in
  Main.mapCaveat has_access [ip; limit]
  = Ok (Main.Build_Caveat "has_access" ["ipaddress"; "int"] EmptyString) /\
  Main.mapCaveat has_access [limit; ip]
  = Ok (Main.Build_Caveat "has_access" ["int"; "ipaddress"] EmptyString).
Proof. split; reflexivity. Qed.

(** ** Comment decoration *)

Lemma isPrefix_length (p l : list ascii) : isPrefix p l = true -> length p <= length l.
Proof.
  revert l. induction p as [| a p IH]; intros [| b l]; simpl; intros H;
    try lia; try discriminate.
  apply andb_prop in H as [_ H]. apply IH in H. lia.
Qed.

Lemma spaceWidth_le (backwards : bool) (l : list ascii) :
  spaceWidth backwards l <= length l.
Proof.
  unfold spaceWidth.
  destruct (find _ whiteSpaceUTF8) as [enc |] eqn:Hfind; [| lia].
  apply find_some in Hfind as [_ Hprefix].
  apply isPrefix_length in Hprefix.
  destruct backwards; [rewrite length_rev in Hprefix |]; exact Hprefix.
Qed.

Lemma isPrefix_app_LF (p l : list ascii) :
  existsb (Ascii.eqb "010"%char) p = false ->
  isPrefix p (l ++ ["010"%char]) = isPrefix p l.
Proof.
  revert l. induction p as [| c p IH]; intros l Hp; [reflexivity |].
  cbn [existsb] in Hp. apply orb_false_elim in Hp as [Hc Hp].
  destruct l as [| b l]; cbn [isPrefix app].
  - rewrite Ascii.eqb_sym, Hc. reflexivity.
  - rewrite (IH l Hp). reflexivity.
Qed.

Lemma find_agree {A : Type} (f g : A -> bool) (l : list A) :
  Forall (fun x => f x = g x) l -> find f l = find g l.
Proof.
  induction 1 as [| x l Hx _ IH]; [reflexivity |].
  cbn [find]. rewrite Hx, IH. reflexivity.
Qed.

(** No white-space rune holds a line feed after its first byte: a line
    feed after [l] changes nothing to the rune that [l] starts with. *)
Lemma spaceWidth_app_LF (a : ascii) (l : list ascii) :
  spaceWidth false ((a :: l) ++ ["010"%char]) = spaceWidth false (a :: l).
Proof.
  unfold spaceWidth.
  rewrite (find_agree (fun enc => isPrefix enc ((a :: l) ++ ["010"%char]))
                      (fun enc => isPrefix enc (a :: l))); [reflexivity |].
  assert (Htails : forallb (fun enc => match enc with
                                       | [] => false
                                       | _ :: tail => negb (existsb (Ascii.eqb "010"%char) tail)
                                       end) whiteSpaceUTF8 = true)
    by (vm_compute; reflexivity).
  rewrite List.forallb_forall in Htails. apply List.Forall_forall.
  intros [| e tail] Hin; specialize (Htails _ Hin); [discriminate |].
  apply negb_true_iff in Htails.
  cbn [isPrefix app]. rewrite (isPrefix_app_LF tail l Htails). reflexivity.
Qed.

Lemma trimFront_app_LF (l : list ascii) :
  forall skip, skip <= length l ->
    trimFront false skip (l ++ ["010"%char])
    = match trimFront false skip l with
      | [] => []
      | c :: rest => (c :: rest) ++ ["010"%char]
      end.
Proof.
  induction l as [| a l IH]; intros skip Hskip.
  - assert (skip = 0) as -> by (simpl in Hskip; lia). vm_compute. reflexivity.
  - destruct skip as [| skip].
    + change (trimFront false 0 ((a :: l) ++ ["010"%char]))
        with (match spaceWidth false ((a :: l) ++ ["010"%char]) with
              | S k => trimFront false k (l ++ ["010"%char])
              | 0 => (a :: l) ++ ["010"%char]
              end).
      change (trimFront false 0 (a :: l))
        with (match spaceWidth false (a :: l) with
              | S k => trimFront false k l
              | 0 => a :: l
              end).
      rewrite spaceWidth_app_LF.
      pose proof (spaceWidth_le false (a :: l)) as Hle.
      destruct (spaceWidth false (a :: l)) as [| k]; [reflexivity |].
      apply IH. simpl in Hle. lia.
    + cbn [trimFront app]. apply IH. simpl in Hskip. lia.
Qed.

Lemma trimFront_backwards_LF (l : list ascii) :
  trimFront true 0 ("010"%char :: l) = trimFront true 0 l.
Proof.
  change (trimFront true 0 ("010"%char :: l))
    with (match spaceWidth true ("010"%char :: l) with
          | S k => trimFront true k l
          | 0 => "010"%char :: l
          end).
  assert (Hwidth : spaceWidth true ("010"%char :: l) = 1) by reflexivity.
  rewrite Hwidth. reflexivity.
Qed.

Lemma TrimRightSpace_app_LF (l : list ascii) :
  TrimRightSpace (l ++ ["010"%char]) = TrimRightSpace l.
Proof.
  unfold TrimRightSpace. rewrite rev_unit, trimFront_backwards_LF. reflexivity.
Qed.

Lemma list_ascii_of_string_app (s t : string) :
  list_ascii_of_string (s +:+ t) = list_ascii_of_string s ++ list_ascii_of_string t.
Proof. induction s as [| c s IH]; simpl; [reflexivity | f_equal; exact IH]. Qed.

(** The line feed that the extractor puts after a comment is trimmed
    away again. *)
Lemma TrimSpace_app_LF (s : string) : TrimSpace (s +:+ LF) = TrimSpace s.
Proof.
  unfold TrimSpace, TrimLeftSpace. f_equal.
  rewrite list_ascii_of_string_app.
  change (list_ascii_of_string LF) with ["010"%char].
  rewrite trimFront_app_LF by lia.
  destruct (trimFront false 0 (list_ascii_of_string s)) as [| c rest]; [reflexivity |].
  apply TrimRightSpace_app_LF.
Qed.

Lemma MapSchema_getMetadataComments_docComment (p1 p2 : byte) (text : string) :
  MapSchema.getMetadataComments (docComment p1 p2 text)
  = Ok (TrimSpace (ReplaceAllString MapSchema.commentRegex text EmptyString +:+ LF)).
Proof.
  unfold MapSchema.getMetadataComments, docComment.
  cbn [corev1.GetMetadataMessage corev1.MetadataMessage MapSchema.getMetadataComments_loop
       corev1.TypeUrl corev1.Value].
  rewrite String.eqb_refl.
  change (slice_from 2 (p1 :: p2 :: list_byte_of_string text))
    with (Ok (list_byte_of_string text)).
  cbn [bind]. rewrite string_of_list_byte_of_string. reflexivity.
Qed.

Lemma Main_getMetadataComments_docComment (p1 p2 : byte) (text : string) :
  Main.getMetadataComments (docComment p1 p2 text) = Ok (TrimSpace (text +:+ LF)).
Proof.
  unfold Main.getMetadataComments, docComment.
  cbn [corev1.GetMetadataMessage corev1.MetadataMessage Main.getMetadataComments_loop
       corev1.TypeUrl corev1.Value].
  rewrite String.eqb_refl.
  change (slice_from 2 (p1 :: p2 :: list_byte_of_string text))
    with (Ok (list_byte_of_string text)).
  cbn [bind]. rewrite string_of_list_byte_of_string. reflexivity.
Qed.



(** The extractor makes one pass: what a removal leaves side by side is
    not looked at again, so its result need not be normalized. *)
Example getMetadataComments_one_pass :
  MapSchema.getMetadataComments (docComment x0a x05 "**/ x") = Ok "* x" /\
  normalized "* x" = false /\
  MapSchema.getMetadataComments (docComment x0a x03 "* x") = Ok "x".
Proof. vm_compute. repeat split. Qed.

(** The extractor of [main.go] has no [commentRegex]: it returns the
    text with its decoration. *)
Example Main_getMetadataComments_keeps_decoration :
  Main.getMetadataComments (docComment x0a x15 ("/** Hello" +:+ LF +:+ " * World */"))
  = Ok ("/** Hello" +:+ LF +:+ " * World */").
Proof. vm_compute. reflexivity. Qed.

Lemma plain_tail (c : ascii) (text : string) :
  plain (String c text) = true -> plain text = true.
Proof. cbn [plain]. intros H. apply andb_prop in H as [_ H]. exact H. Qed.

Lemma plain_no_slash (c : ascii) (text : string) :
  plain (String c text) = true -> Ascii.eqb "/" c = false.
Proof.
  cbn [plain]. intros H. apply andb_prop in H as [H _]. apply andb_prop in H as [H _].
  apply negb_true_iff in H. exact H.
Qed.

Lemma plain_star_then (c c' : ascii) (text : string) :
  plain (String c (String c' text)) = true ->
  Ascii.eqb "*" c = true -> Ascii.eqb " " c' = false.
Proof.
  cbn [plain]. intros H Hstar. apply andb_prop in H as [H _]. apply andb_prop in H as [_ H].
  rewrite Hstar in H. apply negb_true_iff in H. exact H.
Qed.

Lemma matchK_Lit (c : ascii) (s : string) (k : string -> option string) :
  matchK (Lit c) s k
  = match s with
    | String c' s' => if Ascii.eqb c c' then k s' else None
    | EmptyString => None
    end.
Proof. reflexivity. Qed.

Lemma matchK_Cat (r1 r2 : regex) (s : string) (k : string -> option string) :
  matchK (Cat r1 r2) s k = matchK r1 s (fun s' => matchK r2 s' k).
Proof. reflexivity. Qed.

Lemma matchK_Alt (r1 r2 : regex) (s : string) (k : string -> option string) :
  matchK (Alt r1 r2) s k
  = match matchK r1 s k with Some rest => Some rest | None => matchK r2 s k end.
Proof. reflexivity. Qed.

Lemma matchK_Opt (r : regex) (s : string) (k : string -> option string) :
  matchK (Opt r) s k
  = match matchK r s k with Some rest => Some rest | None => k s end.
Proof. reflexivity. Qed.

(** In plain text a slash matches nowhere; a star and a space do not
    match one after the other; and an optional literal in front of
    something that matches nowhere changes nothing. *)
Lemma matchK_slash_plain (text : string) (k : string -> option string) :
  plain text = true -> matchK (Lit "/") text k = None.
Proof.
  intros Hplain. rewrite matchK_Lit. destruct text as [| c text]; [reflexivity |].
  rewrite (plain_no_slash c text Hplain). reflexivity.
Qed.

Lemma matchK_star_space_plain (text : string) :
  plain text = true -> matchK (Cat (Lit "*") (Lit " ")) text Some = None.
Proof.
  intros Hplain. rewrite matchK_Cat, matchK_Lit.
  destruct text as [| c text]; [reflexivity |].
  destruct (Ascii.eqb "*" c) eqn:Hstar; [| reflexivity].
  rewrite matchK_Lit. destruct text as [| c' text]; [reflexivity |].
  rewrite (plain_star_then c c' text Hplain Hstar). reflexivity.
Qed.

Lemma matchK_Opt_Lit_plain (c0 : ascii) (k : string -> option string) (text : string) :
  (forall s, plain s = true -> k s = None) ->
  plain text = true -> matchK (Opt (Lit c0)) text k = None.
Proof.
  intros Hk Hplain. rewrite matchK_Opt, matchK_Lit.
  destruct text as [| c text]; [apply Hk, Hplain |].
  destruct (Ascii.eqb c0 c).
  - rewrite (Hk text (plain_tail c text Hplain)). apply Hk, Hplain.
  - apply Hk, Hplain.
Qed.

(** [commentRegex] matches nowhere in plain text. *)
Lemma commentRegex_no_match_in_plain (text : string) :
  plain text = true -> matchK MapSchema.commentRegex text Some = None.
Proof.
  intros Hplain. unfold MapSchema.commentRegex.
  rewrite matchK_Alt, matchK_Cat, (matchK_slash_plain text _ Hplain).
  rewrite matchK_Alt, matchK_Cat, (matchK_slash_plain text _ Hplain).
  rewrite matchK_Alt, matchK_Cat.
  rewrite (matchK_Opt_Lit_plain " " _ text matchK_star_space_plain Hplain).
  rewrite matchK_Cat.
  apply matchK_Opt_Lit_plain; [| exact Hplain].
  intros s Hs. rewrite matchK_Cat.
  apply matchK_Opt_Lit_plain; [| exact Hs].
  intros s' Hs'. apply matchK_slash_plain, Hs'.
Qed.

Lemma ReplaceAllString_plain (text : string) :
  plain text = true ->
  ReplaceAllString MapSchema.commentRegex text EmptyString = text.
Proof.
  unfold ReplaceAllString.
  induction text as [| c text IH]; intros Hplain; [reflexivity |].
  cbn [replaceAll]. unfold matchWidth.
  rewrite (commentRegex_no_match_in_plain _ Hplain).
  f_equal. apply IH.
  cbn [plain] in Hplain. apply andb_prop in Hplain as [_ Hrest]. exact Hrest.
Qed.

(** Plain text without white space at its ends is normalized. *)
Lemma plain_normalized (text : string) :
  plain text = true -> TrimSpace text = text -> normalized text = true.
Proof.
  intros Hplain Htrim. unfold normalized.
  rewrite (ReplaceAllString_plain text Hplain), Htrim, !String.eqb_refl. reflexivity.
Qed.

(** * Further properties *)

(** ** The comment extractor, on any bag *)

Lemma append_assoc (a b c : string) : (a +:+ b) +:+ c = a +:+ (b +:+ c).
Proof.
  induction a as [| x a IH]; [reflexivity |].
  change (String x ((a +:+ b) +:+ c) = String x (a +:+ (b +:+ c))).
  f_equal. exact IH.
Qed.

Lemma append_empty_r (a : string) : a +:+ EmptyString = a.
Proof.
  induction a as [| x a IH]; [reflexivity |].
  change (String x (a +:+ EmptyString) = String x a). f_equal. exact IH.
Qed.

Lemma Main_getMetadataComments_loop_panics (ds : list corev1.Any) :
  forallb (fun d => negb (isDocComment d) || (2 <=? length (corev1.Value d))) ds = false ->
  forall comment, Main.getMetadataComments_loop ds comment = Panic sliceBoundsOutOfRange.
Proof.
  induction ds as [| d ds IH]; intros Hbad comment; [discriminate |].
  cbn [forallb] in Hbad. cbn [Main.getMetadataComments_loop].
  unfold isDocComment in Hbad.
  destruct (String.eqb (corev1.TypeUrl d) DocCommentTypeUrl); cbn [negb orb] in Hbad.
  - unfold slice_from. destruct (2 <=? length (corev1.Value d)); cbn [bind andb] in *.
    + apply IH, Hbad.
    + reflexivity.
  - apply IH, Hbad.
Qed.

Lemma MapSchema_getMetadataComments_loop_panics (ds : list corev1.Any) :
  forallb (fun d => negb (isDocComment d) || (2 <=? length (corev1.Value d))) ds = false ->
  forall comment, MapSchema.getMetadataComments_loop ds comment = Panic sliceBoundsOutOfRange.
Proof.
  induction ds as [| d ds IH]; intros Hbad comment; [discriminate |].
  cbn [forallb] in Hbad. cbn [MapSchema.getMetadataComments_loop].
  unfold isDocComment in Hbad.
  destruct (String.eqb (corev1.TypeUrl d) DocCommentTypeUrl); cbn [negb orb] in Hbad.
  - unfold slice_from. destruct (2 <=? length (corev1.Value d)); cbn [bind andb] in *.
    + apply IH, Hbad.
    + reflexivity.
  - apply IH, Hbad.
Qed.

(** X1.  The comment extractor of either file fails in one way only, and
    exactly then: it panics with a slice-bounds error when some
    documentation comment of the bag has fewer than two bytes, wherever
    it stands in the bag, and returns a string otherwise. *)
Theorem getMetadataComments_outcome (metaData : option corev1.Metadata) :
  if docCommentsOk metaData
  then (exists c, Main.getMetadataComments metaData = Ok c) /\
       (exists c, MapSchema.getMetadataComments metaData = Ok c)
  else Main.getMetadataComments metaData = Panic sliceBoundsOutOfRange /\
       MapSchema.getMetadataComments metaData = Panic sliceBoundsOutOfRange.
Proof.
  destruct (docCommentsOk metaData) eqn:Hok.
  - split; [apply Main_getMetadataComments_ok | apply MapSchema_getMetadataComments_ok];
      exact Hok.
  - unfold Main.getMetadataComments, MapSchema.getMetadataComments.
    rewrite (Main_getMetadataComments_loop_panics _ Hok).
    rewrite (MapSchema_getMetadataComments_loop_panics _ Hok).
    split; reflexivity.
Qed.

Lemma Main_getMetadataComments_loop_texts (ds : list corev1.Any) :
  forallb (fun d => negb (isDocComment d) || (2 <=? length (corev1.Value d))) ds = true ->
  forall comment,
    Main.getMetadataComments_loop ds comment
    = Ok (comment +:+ joinLines (docTexts (fun t => t) (Some (corev1.Build_Metadata ds)))).
Proof.
  unfold docTexts. cbn [corev1.GetMetadataMessage corev1.MetadataMessage].
  induction ds as [| d ds IH]; intros Hok comment.
  - simpl. rewrite append_empty_r. reflexivity.
  - cbn [forallb] in Hok. apply andb_prop in Hok as [Hd Hds].
    cbn [Main.getMetadataComments_loop List.filter]. unfold isDocComment in *.
    destruct (String.eqb (corev1.TypeUrl d) DocCommentTypeUrl); cbn [negb orb] in Hd.
    + unfold slice_from. rewrite Hd. cbn [bind List.map joinLines].
      rewrite (IH Hds). rewrite append_assoc. reflexivity.
    + apply IH, Hds.
Qed.

Lemma MapSchema_getMetadataComments_loop_texts (ds : list corev1.Any) :
  forallb (fun d => negb (isDocComment d) || (2 <=? length (corev1.Value d))) ds = true ->
  forall comment,
    MapSchema.getMetadataComments_loop ds comment
    = Ok (comment +:+ joinLines (docTexts stripDecoration (Some (corev1.Build_Metadata ds)))).
Proof.
  unfold docTexts. cbn [corev1.GetMetadataMessage corev1.MetadataMessage].
  induction ds as [| d ds IH]; intros Hok comment.
  - simpl. rewrite append_empty_r. reflexivity.
  - cbn [forallb] in Hok. apply andb_prop in Hok as [Hd Hds].
    cbn [MapSchema.getMetadataComments_loop List.filter]. unfold isDocComment in *.
    destruct (String.eqb (corev1.TypeUrl d) DocCommentTypeUrl); cbn [negb orb] in Hd.
    + unfold slice_from. rewrite Hd. cbn [bind List.map joinLines].
      rewrite (IH Hds). rewrite append_assoc. reflexivity.
    + apply IH, Hds.
Qed.

Lemma joinLines_concat (texts : list string) :
  TrimSpace (joinLines texts) = TrimSpace (String.concat LF texts).
Proof.
  assert (Hjoin : forall text texts',
             joinLines (text :: texts') = String.concat LF (text :: texts') +:+ LF).
  { intros text texts'. revert text.
    induction texts' as [| text' texts' IH]; intros text.
    - simpl. rewrite append_empty_r. reflexivity.
    - change (joinLines (text :: text' :: texts'))
        with ((text +:+ LF) +:+ joinLines (text' :: texts')).
      rewrite IH.
      change (String.concat LF (text :: text' :: texts'))
        with (text +:+ LF +:+ String.concat LF (text' :: texts')).
      rewrite !append_assoc. reflexivity. }
  destruct texts as [| text texts']; [reflexivity |].
  rewrite Hjoin. apply TrimSpace_app_LF.
Qed.

(** X2.  On a bag whose documentation comments are prefixed, the
    extractor returns the texts of the documentation comments, in the
    order of the bag, joined by single line feeds and trimmed; what else
    the bag holds has no part in it.  In [main.go] the texts are taken
    as they are, in [mapSchema.go] each one after the decoration
    stripper. *)
Theorem getMetadataComments_joins_doc_comments
    (metaData : option corev1.Metadata)
    (Hok : docCommentsOk metaData = true) :
  Main.getMetadataComments metaData
  = Ok (TrimSpace (String.concat LF (docTexts (fun t => t) metaData))) /\
  MapSchema.getMetadataComments metaData
  = Ok (TrimSpace (String.concat LF (docTexts stripDecoration metaData))).
Proof.
  unfold Main.getMetadataComments, MapSchema.getMetadataComments.
  unfold docCommentsOk in Hok.
  rewrite (Main_getMetadataComments_loop_texts _ Hok).
  rewrite (MapSchema_getMetadataComments_loop_texts _ Hok).
  cbn [bind]. rewrite <- !joinLines_concat.
  split; reflexivity.
Qed.

Lemma getMetadataComments_joins_doc_comments_witness :
  let bag :=
    Some (corev1.Build_Metadata
            [corev1.Build_Any DocCommentTypeUrl (x0a :: x08 :: list_byte_of_string "// first");
             corev1.Build_Any "type.googleapis.com/impl.v1.RelationMetadata" [x08; x01];
             corev1.Build_Any DocCommentTypeUrl (x0a :: x09 :: list_byte_of_string "// second")]) in
  docCommentsOk bag = true /\
  Main.getMetadataComments bag = Ok ("// first" +:+ LF +:+ "// second") /\
  MapSchema.getMetadataComments bag = Ok ("first" +:+ LF +:+ "second").
Proof.
  intros bag. split; [reflexivity |].
  destruct (getMetadataComments_joins_doc_comments bag eq_refl) as [Hmain Hmap].
  split; [rewrite Hmain | rewrite Hmap]; vm_compute; reflexivity.
Defined.

(** ** What the extractor returns *)

Lemma trimFront_suffix (backwards : bool) (l : list ascii) :
  forall skip, exists front, l = front ++ trimFront backwards skip l.
Proof.
  induction l as [| a l IH]; intros skip; [exists []; reflexivity |].
  destruct skip as [| skip].
  - change (trimFront backwards 0 (a :: l))
      with (match spaceWidth backwards (a :: l) with
            | S k => trimFront backwards k l
            | 0 => a :: l
            end).
    destruct (spaceWidth backwards (a :: l)) as [| k]; [exists []; reflexivity |].
    destruct (IH k) as [front Hfront]. exists (a :: front).
    simpl. f_equal. exact Hfront.
  - cbn [trimFront]. destruct (IH skip) as [front Hfront]. exists (a :: front).
    simpl. f_equal. exact Hfront.
Qed.

Lemma trimFront_no_space_left (backwards : bool) (l : list ascii) :
  forall skip, spaceWidth backwards (trimFront backwards skip l) = 0.
Proof.
  induction l as [| a l IH]; intros skip; [destruct backwards; reflexivity |].
  destruct skip as [| skip]; [| apply IH].
  change (trimFront backwards 0 (a :: l))
    with (match spaceWidth backwards (a :: l) with
          | S k => trimFront backwards k l
          | 0 => a :: l
          end).
  destruct (spaceWidth backwards (a :: l)) as [| k] eqn:Hwidth; [exact Hwidth | apply IH].
Qed.

Lemma trimFront_fixed (backwards : bool) (l : list ascii) :
  spaceWidth backwards l = 0 -> trimFront backwards 0 l = l.
Proof.
  intros Hwidth. destruct l as [| a l]; [reflexivity |].
  change (trimFront backwards 0 (a :: l))
    with (match spaceWidth backwards (a :: l) with
          | S k => trimFront backwards k l
          | 0 => a :: l
          end).
  rewrite Hwidth. reflexivity.
Qed.

Lemma isPrefix_app (p l tail : list ascii) :
  isPrefix p l = true -> isPrefix p (l ++ tail) = true.
Proof.
  revert l. induction p as [| c p IH]; intros l Hp; [reflexivity |].
  destruct l as [| b l]; [discriminate |].
  cbn [isPrefix app] in *. apply andb_prop in Hp as [Hc Hp].
  rewrite Hc, (IH l Hp). reflexivity.
Qed.

Lemma whiteSpaceUTF8_nonempty (enc : list ascii) :
  In enc whiteSpaceUTF8 -> length enc <> 0.
Proof.
  intros Hin.
  assert (Hall : forallb (fun enc => negb (length enc =? 0)) whiteSpaceUTF8 = true)
    by (vm_compute; reflexivity).
  rewrite List.forallb_forall in Hall. specialize (Hall enc Hin).
  apply negb_true_iff, Nat.eqb_neq in Hall. exact Hall.
Qed.

(** A list that starts with no white-space rune keeps that when it is
    cut short. *)
Lemma spaceWidth_prefix (l tail : list ascii) :
  spaceWidth false (l ++ tail) = 0 -> spaceWidth false l = 0.
Proof.
  unfold spaceWidth. intros Hlong.
  destruct (find (fun enc => isPrefix enc (l ++ tail)) whiteSpaceUTF8) as [enc |] eqn:Hfind.
  - apply find_some in Hfind as [Hin _].
    destruct (whiteSpaceUTF8_nonempty enc Hin Hlong).
  - destruct (find (fun enc => isPrefix enc l) whiteSpaceUTF8) as [enc |] eqn:Hshort;
      [| reflexivity].
    apply find_some in Hshort as [Hin Hprefix].
    pose proof (find_none _ _ Hfind enc Hin) as Hnone. cbv beta in Hnone.
    rewrite (isPrefix_app enc l tail Hprefix) in Hnone. discriminate.
Qed.

(** [TrimSpace] returns a piece of its argument, and trimming twice is
    trimming once. *)
Lemma TrimSpace_bytes (l : list ascii) :
  exists front back,
    l = front ++ TrimRightSpace (TrimLeftSpace l) ++ back.
Proof.
  unfold TrimRightSpace, TrimLeftSpace.
  destruct (trimFront_suffix false l 0) as [front Hfront].
  destruct (trimFront_suffix true (rev (trimFront false 0 l)) 0) as [back Hback].
  exists front, (rev back).
  rewrite <- rev_app_distr, <- Hback, rev_involutive. exact Hfront.
Qed.

Lemma TrimSpace_idempotent (s : string) : TrimSpace (TrimSpace s) = TrimSpace s.
Proof.
  unfold TrimSpace. rewrite list_ascii_of_string_of_list_ascii. f_equal.
  set (x := TrimLeftSpace (list_ascii_of_string s)).
  assert (Hx : spaceWidth false x = 0) by apply trimFront_no_space_left.
  assert (Hleft : TrimLeftSpace (TrimRightSpace x) = TrimRightSpace x).
  { unfold TrimLeftSpace. apply trimFront_fixed.
    unfold TrimRightSpace.
    destruct (trimFront_suffix true (rev x) 0) as [back Hback].
    apply (spaceWidth_prefix _ (rev back)).
    rewrite <- rev_app_distr, <- Hback, rev_involutive. exact Hx. }
  rewrite Hleft. unfold TrimRightSpace at 1 2. rewrite rev_involutive.
  rewrite (trimFront_fixed true _ (trimFront_no_space_left true (rev x) 0)).
  reflexivity.
Qed.

(** X3.  Whatever the extractor of either file returns has no white
    space at its ends: trimming it again changes nothing. *)
Theorem getMetadataComments_result_is_trimmed
    (metaData : option corev1.Metadata) (comment : string)
    (Hcomment : Main.getMetadataComments metaData = Ok comment
                \/ MapSchema.getMetadataComments metaData = Ok comment) :
  TrimSpace comment = comment.
Proof.
  destruct Hcomment as [H | H];
    [unfold Main.getMetadataComments in H | unfold MapSchema.getMetadataComments in H];
    apply bind_Ok_inv in H as (raw & _ & Hraw);
    injection Hraw as <-; apply TrimSpace_idempotent.
Qed.

Lemma getMetadataComments_result_is_trimmed_witness :
  let bag := docComment x0a x0c "  // padded  " in
  Main.getMetadataComments bag = Ok "// padded" /\
  TrimSpace "// padded" = "// padded".
Proof.
  intros bag.
  assert (Hbag : Main.getMetadataComments bag = Ok "// padded") by (vm_compute; reflexivity).
  split; [exact Hbag |].
  exact (getMetadataComments_result_is_trimmed bag "// padded" (or_introl Hbag)).
Defined.

(** ** What the decoration stripper takes away *)

Lemma matchK_shorter (r : regex) :
  forall s k out, matchK r s k = Some out ->
                  exists s', k s' = Some out /\ String.length s' <= String.length s.
Proof.
  induction r as [c | r1 IH1 r2 IH2 | r1 IH1 r2 IH2 | r IH]; intros s k out Hmatch.
  - rewrite matchK_Lit in Hmatch. destruct s as [| c' s]; [discriminate |].
    destruct (Ascii.eqb c c'); [| discriminate].
    exists s. split; [exact Hmatch | simpl; lia].
  - rewrite matchK_Cat in Hmatch.
    apply IH1 in Hmatch as (s1 & Hmatch & Hlen1).
    apply IH2 in Hmatch as (s2 & Hmatch & Hlen2).
    exists s2. split; [exact Hmatch | lia].
  - rewrite matchK_Alt in Hmatch.
    destruct (matchK r1 s k) as [out1 |] eqn:H1.
    + injection Hmatch as <-. apply IH1, H1.
    + apply IH2, Hmatch.
  - rewrite matchK_Opt in Hmatch.
    destruct (matchK r s k) as [out1 |] eqn:H1.
    + injection Hmatch as <-. apply IH, H1.
    + exists s. split; [exact Hmatch | lia].
Qed.

Lemma matchK_strictly_shorter (r : regex) :
  nullable r = false ->
  forall s k out, matchK r s k = Some out ->
                  exists s', k s' = Some out /\ String.length s' < String.length s.
Proof.
  induction r as [c | r1 IH1 r2 IH2 | r1 IH1 r2 IH2 | r IH];
    cbn [nullable]; intros Hnull s k out Hmatch.
  - rewrite matchK_Lit in Hmatch. destruct s as [| c' s]; [discriminate |].
    destruct (Ascii.eqb c c'); [| discriminate].
    exists s. split; [exact Hmatch | simpl; lia].
  - rewrite matchK_Cat in Hmatch.
    destruct (nullable r1) eqn:Hn1.
    + apply matchK_shorter in Hmatch as (s1 & Hmatch & Hlen1).
      apply (IH2 Hnull) in Hmatch as (s2 & Hmatch & Hlen2).
      exists s2. split; [exact Hmatch | lia].
    + apply (IH1 eq_refl) in Hmatch as (s1 & Hmatch & Hlen1).
      apply matchK_shorter in Hmatch as (s2 & Hmatch & Hlen2).
      exists s2. split; [exact Hmatch | lia].
  - apply orb_false_elim in Hnull as [Hn1 Hn2].
    rewrite matchK_Alt in Hmatch.
    destruct (matchK r1 s k) as [out1 |] eqn:H1.
    + injection Hmatch as <-. apply (IH1 Hn1), H1.
    + apply (IH2 Hn2), Hmatch.
  - discriminate.
Qed.

(** At a slash [commentRegex] always matches, one byte at least. *)
Lemma commentRegex_matches_at_slash (rest : string) :
  exists k, matchWidth MapSchema.commentRegex (String "/" rest) = Some (S k).
Proof.
  assert (Hsome : exists out,
             matchK MapSchema.commentRegex (String "/" rest) Some = Some out).
  { unfold MapSchema.commentRegex.
    rewrite matchK_Alt.
    match goal with |- context [match ?m with Some _ => _ | None => _ end] =>
      destruct m as [out |]; [exists out; reflexivity |] end.
    rewrite matchK_Alt.
    match goal with |- context [match ?m with Some _ => _ | None => _ end] =>
      destruct m as [out |]; [exists out; reflexivity |] end.
    rewrite matchK_Alt.
    match goal with |- context [match ?m with Some _ => _ | None => _ end] =>
      destruct m as [out |]; [exists out; reflexivity |] end.
    exists rest. reflexivity. }
  destruct Hsome as [out Hout]. unfold matchWidth. rewrite Hout.
  apply (matchK_strictly_shorter MapSchema.commentRegex eq_refl) in Hout
    as (s' & Hs' & Hlen).
  injection Hs' as ->.
  exists (String.length (String "/" rest) - String.length out - 1).
  f_equal. lia.
Qed.

Lemma replaceAll_no_slash (src : string) :
  forall skip,
    ~ In "/"%char (list_ascii_of_string
                     (replaceAll MapSchema.commentRegex EmptyString skip src)).
Proof.
  induction src as [| c src IH]; intros skip; [intros [] |].
  destruct skip as [| skip]; [| apply IH].
  cbn [replaceAll].
  destruct (matchWidth MapSchema.commentRegex (String c src)) as [[| k] |] eqn:Hwidth.
  - intros [Hc | Hin]; [| exact (IH 0 Hin)].
    subst c. destruct (commentRegex_matches_at_slash src) as [k Hk]. congruence.
  - apply IH.
  - intros [Hc | Hin]; [| exact (IH 0 Hin)].
    subst c. destruct (commentRegex_matches_at_slash src) as [k Hk]. congruence.
Qed.

Lemma joinLines_stripped_no_slash (texts : list string) :
  ~ In "/"%char (list_ascii_of_string (joinLines (List.map stripDecoration texts))).
Proof.
  induction texts as [| text texts IH]; [intros [] |].
  cbn [List.map joinLines]. rewrite !list_ascii_of_string_app.
  intros Hin. apply in_app_or in Hin as [Hin | Hin]; [| exact (IH Hin)].
  apply in_app_or in Hin as [Hin | Hin].
  - exact (replaceAll_no_slash text 0 Hin).
  - destruct Hin as [Hin | []]. discriminate Hin.
Qed.

(** X4.  The comment that the extractor of [mapSchema.go] returns holds
    no slash at all: the stripper takes every slash of the text away,
    those of decoration and any other. *)
Theorem MapSchema_getMetadataComments_has_no_slash
    (metaData : option corev1.Metadata) (comment : string)
    (Hcomment : MapSchema.getMetadataComments metaData = Ok comment) :
  ~ In "/"%char (list_ascii_of_string comment).
Proof.
  unfold MapSchema.getMetadataComments in Hcomment.
  destruct (docCommentsOk metaData) eqn:Hok; unfold docCommentsOk in Hok;
    [| rewrite (MapSchema_getMetadataComments_loop_panics _ Hok) in Hcomment;
       discriminate].
  rewrite (MapSchema_getMetadataComments_loop_texts _ Hok) in Hcomment.
  cbn [bind] in Hcomment. injection Hcomment as <-.
  set (bag := Some (corev1.Build_Metadata (corev1.GetMetadataMessage metaData))).
  assert (Hno : ~ In "/"%char
                  (list_ascii_of_string (joinLines (docTexts stripDecoration bag)))).
  { unfold docTexts.
    rewrite <- (List.map_map (fun d => string_of_list_byte (skipn 2 (corev1.Value d)))
                             stripDecoration).
    apply joinLines_stripped_no_slash. }
  change (EmptyString +:+ joinLines (docTexts stripDecoration bag))
    with (joinLines (docTexts stripDecoration bag)).
  unfold TrimSpace. rewrite list_ascii_of_string_of_list_ascii.
  destruct (TrimSpace_bytes (list_ascii_of_string (joinLines (docTexts stripDecoration bag))))
    as (front & back & Hpieces).
  intros Hin. apply Hno.
  rewrite Hpieces. apply in_or_app. right. apply in_or_app. left. exact Hin.
Qed.

Lemma MapSchema_getMetadataComments_has_no_slash_witness :
  let bag := docComment x0a x1b "// see https://authzed.com/docs" in
  MapSchema.getMetadataComments bag = Ok "see https:authzed.comdocs" /\
  ~ In "/"%char (list_ascii_of_string "see https:authzed.comdocs").
Proof.
  intros bag.
  assert (Hbag : MapSchema.getMetadataComments bag = Ok "see https:authzed.comdocs")
    by (vm_compute; reflexivity).
  split; [exact Hbag |].
  exact (MapSchema_getMetadataComments_has_no_slash bag _ Hbag).
Defined.

(** ** The relation mapper *)

Lemma Main_mapRelation_loop_map (ts : list corev1.AllowedRelation) :
  forall types, Main.mapRelation_loop ts types = types ++ List.map Main.mapRelationType ts.
Proof.
  induction ts as [| t ts IH]; intros types; simpl.
  - rewrite app_nil_r. reflexivity.
  - rewrite IH, <- app_assoc. reflexivity.
Qed.

Lemma MapSchema_mapRelation_loop_map (ts : list corev1.AllowedRelation) :
  forall types,
    MapSchema.mapRelation_loop ts types = types ++ List.map MapSchema.mapRelationType ts.
Proof.
  induction ts as [| t ts IH]; intros types; simpl.
  - rewrite app_nil_r. reflexivity.
  - rewrite IH, <- app_assoc. reflexivity.
Qed.

(** X5.  For a relation with type information and prefixed documentation
    comments, the relation mapper of either file returns a relation with
    the name of the source, its comment, and one type per allowed
    relation of the source, in the order of the source. *)
Theorem mapRelation_maps_types_in_order
    (relation : corev1.Relation) (typeInformation : corev1.TypeInformation)
    (Htypes : corev1.Relation_TypeInformation relation = Some typeInformation)
    (Hdoc : docCommentsOk (corev1.Relation_Metadata relation) = true) :
  (exists comment,
     Main.getMetadataComments (corev1.Relation_Metadata relation) = Ok comment /\
     Main.mapRelation relation
     = Ok {| Main.Relation_Name := corev1.Relation_Name relation;
             Main.Relation_Types :=
               List.map Main.mapRelationType
                        (corev1.AllowedDirectRelations typeInformation);
             Main.Relation_Comment := comment |}) /\
  (exists comment,
     MapSchema.getMetadataComments (corev1.Relation_Metadata relation) = Ok comment /\
     MapSchema.mapRelation relation
     = Ok {| MapSchema.Relation_Name := corev1.Relation_Name relation;
             MapSchema.Relation_Types :=
               List.map MapSchema.mapRelationType
                        (corev1.AllowedDirectRelations typeInformation);
             MapSchema.Relation_Comment := comment |}).
Proof.
  split.
  - destruct (Main_getMetadataComments_ok _ Hdoc) as [comment Hcomment].
    exists comment. split; [exact Hcomment |].
    unfold Main.mapRelation. rewrite Htypes, Hcomment. cbn [deref bind].
    rewrite Main_mapRelation_loop_map. reflexivity.
  - destruct (MapSchema_getMetadataComments_ok _ Hdoc) as [comment Hcomment].
    exists comment. split; [exact Hcomment |].
    unfold MapSchema.mapRelation. rewrite Htypes, Hcomment. cbn [deref bind].
    rewrite MapSchema_mapRelation_loop_map. reflexivity.
Qed.

Lemma mapRelation_maps_types_in_order_witness :
  let group := corev1.Build_AllowedRelation "group" (corev1.AllowedRelation_Relation "member") None in
  let anyone := corev1.Build_AllowedRelation "user" corev1.AllowedRelation_PublicWildcard None in
  let typeInformation := corev1.Build_TypeInformation [group; anyone] in
  let reader := corev1.Build_Relation "reader" None (Some typeInformation) None in
  exists comment,
    Main.getMetadataComments None = Ok comment /\
    Main.mapRelation reader
    = Ok {| Main.Relation_Name := "reader";
            Main.Relation_Types := [Main.mapRelationType group; Main.mapRelationType anyone];
            Main.Relation_Comment := comment |}.
Proof.
  intros group anyone typeInformation reader.
  exact (proj1 (mapRelation_maps_types_in_order reader typeInformation eq_refl eq_refl)).
Defined.

(** ** The rewrite-tree mapper, on any rule *)

Lemma mapUserSetChild_loop_panics (cs : list corev1.SetOperation_Child) :
  Forall (nestedRule (fun set =>
            tuplesComplete set = false ->
            Main.mapUserSet_nonnil set = Panic nilPointerDereference)) cs ->
  tuplesComplete_children tuplesComplete cs = false ->
  forall sets,
    Main.mapUserSetChild_loop Main.mapUserSet_nonnil cs sets = Panic nilPointerDereference.
Proof.
  induction 1 as [| child cs Hchild _ IH]; intros Hbad sets; [discriminate |].
  cbn [tuplesComplete_children] in Hbad.
  destruct child as [| | computed | tuple | set |]; cbn [andb] in Hbad;
    cbn [Main.mapUserSetChild_loop]; try (apply IH, Hbad).
  - unfold tupleComplete in Hbad.
    destruct (corev1.TupleToUserset_Tupleset_ tuple); [| reflexivity].
    destruct (corev1.TupleToUserset_ComputedUserset tuple); [| reflexivity].
    cbn [deref bind]. apply IH, Hbad.
  - cbn [nestedRule] in Hchild.
    destruct (tuplesComplete set) eqn:Hset.
    + destruct (mapUserSet_nonnil_ok set Hset) as [mapped ->]. cbn [bind]. apply IH, Hbad.
    + rewrite (Hchild eq_refl). reflexivity.
Qed.

Lemma mapUserSet_nonnil_panics (userset : corev1.UsersetRewrite) :
  tuplesComplete userset = false ->
  Main.mapUserSet_nonnil userset = Panic nilPointerDereference.
Proof.
  induction userset as [| s IH | s IH | s IH] using UsersetRewrite_nested_ind;
    cbn [tuplesComplete]; intros Hbad; try discriminate;
    cbn [Main.mapUserSet_nonnil];
    rewrite (mapUserSetChild_loop_panics _ IH Hbad []); reflexivity.
Qed.

(** X6.  The rewrite-tree mapper fails in one way only, and exactly
    then: it panics on a nil pointer when some tuple-to-userset child of
    the rule, at any depth, lacks its tupleset or its computed userset,
    and returns a result otherwise. *)
Theorem mapUserSet_outcome (userset : corev1.UsersetRewrite) :
  if tuplesComplete userset
  then exists mapped, Main.mapUserSet (Some userset) = Ok mapped
  else Main.mapUserSet (Some userset) = Panic nilPointerDereference.
Proof.
  destruct (tuplesComplete userset) eqn:Hcomplete.
  - apply mapUserSet_nonnil_ok, Hcomplete.
  - apply mapUserSet_nonnil_panics, Hcomplete.
Qed.

Lemma mapUserSetChild_loop_populated
    (f : corev1.UsersetRewrite -> outcome (option Main.UserSet))
    (cs : list corev1.SetOperation_Child) :
  forall sets,
    Main.mapUserSetChild_loop f cs sets
    = Main.mapUserSetChild_loop f (List.filter populated cs) sets.
Proof.
  induction cs as [| child cs IH]; intros sets; [reflexivity |].
  cbn [List.filter]. unfold populated at 1.
  destruct (unpopulated child) eqn:Hchild; cbn [negb].
  - rewrite (mapUserSetChild_loop_unpopulated f child cs sets Hchild). apply IH.
  - rewrite !mapUserSetChild_loop_body.
    destruct (Main.mapUserSetChild_body f child sets); cbn [bind]; auto.
Qed.

Lemma mapUserSetChild_loop_length
    (f : corev1.UsersetRewrite -> outcome (option Main.UserSet))
    (cs : list corev1.SetOperation_Child) :
  forall sets out,
    Main.mapUserSetChild_loop f cs sets = Ok out ->
    length out = length sets + length (List.filter populated cs).
Proof.
  induction cs as [| child cs IH]; intros sets out Hloop.
  - injection Hloop as <-. simpl. lia.
  - rewrite mapUserSetChild_loop_body in Hloop.
    apply bind_Ok_inv in Hloop as (sets' & Hbody & Hrest).
    apply IH in Hrest. rewrite Hrest. clear Hrest.
    unfold Main.mapUserSetChild_body in Hbody. cbn [List.filter]. unfold populated at 2.
    destruct child as [| | computed | tuple | set |]; cbn in Hbody |- *;
      try (injection Hbody as <-; lia).
    + injection Hbody as <-. rewrite length_app. simpl. lia.
    + destruct (corev1.TupleToUserset_Tupleset_ tuple); [| discriminate].
      destruct (corev1.TupleToUserset_ComputedUserset tuple); [| discriminate].
      cbn in Hbody. injection Hbody as <-. rewrite length_app. simpl. lia.
    + destruct (f set); try discriminate.
      cbn in Hbody. injection Hbody as <-. rewrite length_app. simpl. lia.
Qed.

(** X7.  The child mapper sees only the populated children: it returns
    on a list what it returns on the list without its unpopulated
    children, and when it returns, it returns one entry for each
    populated child. *)
Theorem mapUserSetChild_keeps_the_populated_children
    (children : list corev1.SetOperation_Child) :
  Main.mapUserSetChild children = Main.mapUserSetChild (List.filter populated children) /\
  forall out,
    Main.mapUserSetChild children = Ok out ->
    length out = length (List.filter populated children).
Proof.
  unfold Main.mapUserSetChild. split.
  - apply mapUserSetChild_loop_populated.
  - intros out Hout. apply mapUserSetChild_loop_length in Hout. exact Hout.
Qed.

(** ** The permission mapper *)

Lemma mapUserSet_nonnil_nil (userset : corev1.UsersetRewrite) :
  Main.mapUserSet_nonnil userset = Ok None -> userset = corev1.Rewrite_unset.
Proof.
  destruct userset as [| s | s | s]; [reflexivity | | |];
    cbn [Main.mapUserSet_nonnil];
    destruct (Main.mapUserSetChild_loop _ _ _); discriminate.
Qed.

(** X8.  A permission that the mapper of [main.go] returns carries the
    name of the relation, and its userSet is nil exactly when the
    relation has no rewrite rule or a rule with no operator populated. *)
Theorem mapPermission_userSet_nil
    (relation : corev1.Relation) (permission : Main.Permission)
    (Hpermission : Main.mapPermission relation = Ok permission) :
  Main.Permission_Name permission = corev1.Relation_Name relation /\
  Main.mapUserSet (corev1.Relation_UsersetRewrite relation)
  = Ok (Main.Permission_UserSet permission) /\
  (Main.Permission_UserSet permission = None <->
   corev1.Relation_UsersetRewrite relation = None \/
   corev1.Relation_UsersetRewrite relation = Some corev1.Rewrite_unset).
Proof.
  unfold Main.mapPermission in Hpermission.
  apply bind_Ok_inv in Hpermission as (userSet & HuserSet & Hpermission).
  apply bind_Ok_inv in Hpermission as (comment & _ & Hpermission).
  injection Hpermission as <-. cbn.
  split; [reflexivity |]. split; [exact HuserSet |].
  split.
  - intros ->. destruct (corev1.Relation_UsersetRewrite relation) as [userset |];
      [right | left; reflexivity].
    f_equal. apply mapUserSet_nonnil_nil, HuserSet.
  - intros [Hnil | Hunset]; rewrite ?Hnil, ?Hunset in HuserSet;
      cbn in HuserSet; congruence.
Qed.

Lemma mapPermission_userSet_nil_witness :
  let empty := corev1.Build_Relation "nobody" (Some corev1.Rewrite_unset) None None in
  let permission := Main.Build_Permission "nobody" None EmptyString in
  Main.mapPermission empty = Ok permission /\
  Main.Permission_Name permission = "nobody" /\
  (Main.Permission_UserSet permission = None <->
   corev1.Relation_UsersetRewrite empty = None \/
   corev1.Relation_UsersetRewrite empty = Some corev1.Rewrite_unset).
Proof.
  intros empty permission.
  assert (H : Main.mapPermission empty = Ok permission) by reflexivity.
  split; [exact H |].
  destruct (mapPermission_userSet_nil empty permission H) as (Hname & _ & Hnil).
  split; [exact Hname | exact Hnil].
Defined.

(** ** The definition mapper, on the first relation it cannot classify *)

Lemma Main_mapDefinition_loop_prefix kind (before rest : list corev1.Relation) :
  forallb (fun r => relationStructureOk kind r && (isPermission kind r || isRelation kind r))
          before = true ->
  forall relations permissions, exists relations' permissions',
    Main.mapDefinition_loop kind (before ++ rest) relations permissions
    = Main.mapDefinition_loop kind rest relations' permissions'.
Proof.
  induction before as [| r before IH]; intros Hbefore relations permissions.
  - exists relations, permissions. reflexivity.
  - cbn [forallb] in Hbefore. apply andb_prop in Hbefore as [Hr Hbefore].
    apply andb_prop in Hr as [Hstruct Hkind].
    pose proof (kinds_exclusive kind r Hkind) as Hexcl.
    rewrite <- app_comm_cons. cbn [Main.mapDefinition_loop].
    fold (isPermission kind r). fold (isRelation kind r).
    destruct (isPermission kind r) eqn:Hperm; simpl in Hexcl; rewrite ?Hexcl.
    + destruct (Main_mapPermission_ok kind r Hstruct Hperm) as [p ->]. cbn [bind].
      apply IH, Hbefore.
    + destruct (Main_mapRelation_ok kind r Hstruct Hexcl) as [rel ->]. cbn [bind].
      apply IH, Hbefore.
Qed.

Lemma Main_mapDefinition_first_unclassified kind (def : corev1.NamespaceDefinition)
    (before after : list corev1.Relation) (r : corev1.Relation) :
  corev1.NamespaceDefinition_Relation def = before ++ r :: after ->
  forallb (fun x => relationStructureOk kind x && (isPermission kind x || isRelation kind x))
          before = true ->
  isPermission kind r = false -> isRelation kind r = false ->
  Main.mapDefinition kind def = Err (UnexpectedRelation (corev1.Relation_Name r)).
Proof.
  intros Hrels Hbefore Hnp Hnr. unfold Main.mapDefinition. rewrite Hrels.
  destruct (Main_mapDefinition_loop_prefix kind before (r :: after) Hbefore [] [])
    as (relations & permissions & ->).
  cbn [Main.mapDefinition_loop].
  fold (isPermission kind r). fold (isRelation kind r).
  rewrite Hnp, Hnr. reflexivity.
Qed.

Lemma MapSchema_mapDefinition_loop_prefix kind (before rest : list corev1.Relation) :
  forallb (fun r => relationStructureOk kind r && (isPermission kind r || isRelation kind r))
          before = true ->
  forall relations permissions, exists relations' permissions',
    MapSchema.mapDefinition_loop kind (before ++ rest) relations permissions
    = MapSchema.mapDefinition_loop kind rest relations' permissions'.
Proof.
  induction before as [| r before IH]; intros Hbefore relations permissions.
  - exists relations, permissions. reflexivity.
  - cbn [forallb] in Hbefore. apply andb_prop in Hbefore as [Hr Hbefore].
    apply andb_prop in Hr as [Hstruct Hkind].
    pose proof (kinds_exclusive kind r Hkind) as Hexcl.
    rewrite <- app_comm_cons. cbn [MapSchema.mapDefinition_loop].
    fold (isPermission kind r). fold (isRelation kind r).
    destruct (isPermission kind r) eqn:Hperm; simpl in Hexcl; rewrite ?Hexcl.
    + destruct (MapSchema_mapPermission_ok kind r Hstruct Hperm) as [p ->]. cbn [bind].
      apply IH, Hbefore.
    + destruct (MapSchema_mapRelation_ok kind r Hstruct Hexcl) as [rel ->]. cbn [bind].
      apply IH, Hbefore.
Qed.

Lemma MapSchema_mapDefinition_first_unclassified kind (def : corev1.NamespaceDefinition)
    (before after : list corev1.Relation) (r : corev1.Relation) :
  corev1.NamespaceDefinition_Relation def = before ++ r :: after ->
  forallb (fun x => relationStructureOk kind x && (isPermission kind x || isRelation kind x))
          before = true ->
  isPermission kind r = false -> isRelation kind r = false ->
  MapSchema.mapDefinition kind def = Err (UnexpectedRelation (corev1.Relation_Name r)).
Proof.
  intros Hrels Hbefore Hnp Hnr. unfold MapSchema.mapDefinition. rewrite Hrels.
  destruct (MapSchema_mapDefinition_loop_prefix kind before (r :: after) Hbefore [] [])
    as (relations & permissions & ->).
  cbn [MapSchema.mapDefinition_loop].
  fold (isPermission kind r). fold (isRelation kind r).
  rewrite Hnp, Hnr. reflexivity.
Qed.

(** X9.  The definition mapper of either file stops at the first
    relation that is neither a storage relation nor a permission and
    returns the error that names it, whatever comes after it in the
    definition and whatever the name and the metadata of the definition
    are. *)
Theorem mapDefinition_reports_first_unclassified
    (GetRelationKind : corev1.Relation -> implv1.RelationMetadata_RelationKind)
    (def : corev1.NamespaceDefinition)
    (before after : list corev1.Relation) (r : corev1.Relation)
    (Hrelations : corev1.NamespaceDefinition_Relation def = before ++ r :: after)
    (Hbefore : forallb (fun x => relationStructureOk GetRelationKind x
                                 && (isPermission GetRelationKind x
                                     || isRelation GetRelationKind x))
                       before = true)
    (Hpermission : isPermission GetRelationKind r = false)
    (Hrelation : isRelation GetRelationKind r = false) :
  Main.mapDefinition GetRelationKind def
  = Err (UnexpectedRelation (corev1.Relation_Name r)) /\
  MapSchema.mapDefinition GetRelationKind def
  = Err (UnexpectedRelation (corev1.Relation_Name r)).
Proof.
  split.
  - exact (Main_mapDefinition_first_unclassified GetRelationKind def before after r
             Hrelations Hbefore Hpermission Hrelation).
  - exact (MapSchema_mapDefinition_first_unclassified GetRelationKind def before after r
             Hrelations Hbefore Hpermission Hrelation).
Qed.

Lemma mapDefinition_reports_first_unclassified_witness :
  let owner := corev1.Build_Relation "owner" None None None in
  let unread := corev1.Build_Relation "guest" None None
                  (Some (corev1.Build_Metadata [corev1.Build_Any DocCommentTypeUrl []])) in
  let def := corev1.Build_NamespaceDefinition "ns/folder" [viewer; owner; unread]
               (Some (corev1.Build_Metadata [corev1.Build_Any DocCommentTypeUrl []])) in
  Main.mapDefinition exampleKind def = Err (UnexpectedRelation "owner") /\
  MapSchema.mapDefinition exampleKind def = Err (UnexpectedRelation "owner").
Proof.
  intros owner unread def.
  apply (mapDefinition_reports_first_unclassified exampleKind def [viewer] [unread] owner);
    reflexivity.
Defined.

(** X10.  The namespace and the name that the definition mapper of
    either file returns put the qualified name together again: with a
    separator in the qualified name, it is the namespace, the separator
    and the name; without one, the namespace is empty and the name is
    the qualified name.  The namespace never holds a separator. *)
Theorem mapDefinition_name_round_trip
    (GetRelationKind : corev1.Relation -> implv1.RelationMetadata_RelationKind)
    (def : corev1.NamespaceDefinition)
    (Hwf : wellFormedDefinition GetRelationKind def = true) :
  (exists d,
     Main.mapDefinition GetRelationKind def = Ok d /\
     Index (Main.Definition_Namespace d) "/" = None /\
     match Index (corev1.NamespaceDefinition_Name def) "/" with
     | Some _ => corev1.NamespaceDefinition_Name def
                 = Main.Definition_Namespace d +:+ "/" +:+ Main.Definition_Name d
     | None => Main.Definition_Namespace d = EmptyString /\
               Main.Definition_Name d = corev1.NamespaceDefinition_Name def
     end) /\
  (exists d,
     MapSchema.mapDefinition GetRelationKind def = Ok d /\
     Index (MapSchema.Definition_Namespace d) "/" = None /\
     match Index (corev1.NamespaceDefinition_Name def) "/" with
     | Some _ => corev1.NamespaceDefinition_Name def
                 = MapSchema.Definition_Namespace d +:+ "/" +:+ MapSchema.Definition_Name d
     | None => MapSchema.Definition_Namespace d = EmptyString /\
               MapSchema.Definition_Name d = corev1.NamespaceDefinition_Name def
     end).
Proof.
  assert (Hsplit : forall qualified namespace name,
             SplitRule qualified namespace name ->
             Index namespace "/" = None /\
             match Index qualified "/" with
             | Some _ => qualified = namespace +:+ "/" +:+ name
             | None => namespace = EmptyString /\ name = qualified
             end).
  { intros qualified namespace name (Hfirst & Hnone & _).
    destruct (Index qualified "/") as [i |] eqn:Hi.
    - destruct (Index_Some_split qualified i Hi) as (a & b & Hq & Ha).
      destruct (Hfirst a b Hq Ha) as [-> ->]. split; [exact Ha | exact Hq].
    - destruct (Hnone eq_refl) as [-> ->]. split; [reflexivity | split; reflexivity]. }
  split.
  - destruct (Main_mapDefinition_wf GetRelationKind def Hwf) as (d & Hd & _ & Hrule).
    exists d. split; [exact Hd | apply Hsplit, Hrule].
  - destruct (MapSchema_mapDefinition_wf GetRelationKind def Hwf) as (d & Hd & _ & Hrule).
    exists d. split; [exact Hd | apply Hsplit, Hrule].
Qed.

Lemma mapDefinition_name_round_trip_witness :
  wellFormedDefinition exampleKind document = true /\
  exists d,
    Main.mapDefinition exampleKind document = Ok d /\
    Index (Main.Definition_Namespace d) "/" = None /\
    "ns/document" = Main.Definition_Namespace d +:+ "/" +:+ Main.Definition_Name d.
Proof.
  split; [reflexivity |].
  destruct (mapDefinition_name_round_trip exampleKind document eq_refl)
    as [(d & Hd & Hnamespace & Hname) _].
  exists d. split; [exact Hd |]. split; [exact Hnamespace | exact Hname].
Defined.

(** ** The document assembler *)





Lemma WriteSchemaTo_definitions_prefix
    (GetRelationKind : corev1.Relation -> implv1.RelationMetadata_RelationKind)
    (before rest : list corev1.NamespaceDefinition) :
  forallb (wellFormedDefinition GetRelationKind) before = true ->
  forall definitions, exists definitions',
    Main.WriteSchemaTo_definitions GetRelationKind (before ++ rest) definitions
    = Main.WriteSchemaTo_definitions GetRelationKind rest definitions'.
Proof.
  induction before as [| def before IH]; intros Hwf definitions.
  - exists definitions. reflexivity.
  - cbn [forallb] in Hwf. apply andb_prop in Hwf as [Hdef Hbefore].
    destruct (Main_mapDefinition_wf GetRelationKind def Hdef) as (d & Hd & _).
    rewrite <- app_comm_cons. cbn [Main.WriteSchemaTo_definitions]. rewrite Hd.
    apply IH, Hbefore.
Qed.

(** X12.  The document assembler stops at the first definition that the
    definition mapper refuses: after well-formed definitions, a
    definition whose first unclassified relation is [r] makes it return
    the error of [r] wrapped with the name of that definition, with
    nothing written, whatever definitions and caveats come after. *)
Theorem WriteSchemaTo_reports_first_failing_definition
    (GetRelationKind : corev1.Relation -> implv1.RelationMetadata_RelationKind)
    (rangeOrder : gmap string corev1.CaveatTypeReference
                  -> list (string * corev1.CaveatTypeReference))
    (json_Marshal : Main.Schema -> string + error)
    (W : Type) (Write : W -> string -> W * option error)
    (schema : corev1.CompiledSchema) (w : W)
    (defsBefore defsAfter : list corev1.NamespaceDefinition)
    (def : corev1.NamespaceDefinition)
    (before after : list corev1.Relation) (r : corev1.Relation)
    (Hdefinitions : corev1.ObjectDefinitions schema = defsBefore ++ def :: defsAfter)
    (HdefsBefore : forallb (wellFormedDefinition GetRelationKind) defsBefore = true)
    (Hrelations : corev1.NamespaceDefinition_Relation def = before ++ r :: after)
    (Hbefore : forallb (fun x => relationStructureOk GetRelationKind x
                                 && (isPermission GetRelationKind x
                                     || isRelation GetRelationKind x))
                       before = true)
    (Hpermission : isPermission GetRelationKind r = false)
    (Hrelation : isRelation GetRelationKind r = false) :
  Main.WriteSchemaTo GetRelationKind rangeOrder json_Marshal W Write schema w
  = (w, Err (FailedToExport (corev1.NamespaceDefinition_Name def)
                            (UnexpectedRelation (corev1.Relation_Name r)))).
Proof.
  unfold Main.WriteSchemaTo. rewrite Hdefinitions.
  destruct (WriteSchemaTo_definitions_prefix GetRelationKind defsBefore (def :: defsAfter)
              HdefsBefore []) as (definitions & ->).
  cbn [Main.WriteSchemaTo_definitions].
  rewrite (Main_mapDefinition_first_unclassified GetRelationKind def before after r
             Hrelations Hbefore Hpermission Hrelation).
  reflexivity.
Qed.

Lemma WriteSchemaTo_reports_first_failing_definition_witness :
  let owner := corev1.Build_Relation "owner" None None None in
  let unread := corev1.Build_NamespaceDefinition "ns/unread"
                  [corev1.Build_Relation "guest" None None None] None in
  let schema := corev1.Build_CompiledSchema [document; folder; unread] [has_access] in
  Main.WriteSchemaTo exampleKind map_to_list encoded (list string) keep schema []
  = ([], Err (FailedToExport "ns/folder" (UnexpectedRelation "owner"))).
Proof.
  intros owner unread schema.
  apply (WriteSchemaTo_reports_first_failing_definition
           exampleKind map_to_list encoded (list string) keep schema []
           [document] [unread] folder [viewer] [view] owner); reflexivity.
Defined.

(** ** The caveat mapper of [main.go] *)

(** X13.  For a caveat with prefixed documentation comments, the caveat
    mapper of [main.go] returns the name of the caveat and, as
    parameters, one type name for each declared parameter: the type
    names of the declared parameters in some order, without the
    parameter names. *)
Theorem Main_mapCaveat_lists_the_type_names
    (caveat : corev1.CaveatDefinition)
    (order : list (string * corev1.CaveatTypeReference))
    (Horder : Permutation order (map_to_list (corev1.ParameterTypes caveat)))
    (Hdoc : docCommentsOk (corev1.CaveatDefinition_Metadata caveat) = true) :
  exists out,
    Main.mapCaveat caveat order = Ok out /\
    Main.Caveat_Name out = corev1.CaveatDefinition_Name caveat /\
    Permutation (Main.Caveat_Parameters out)
                (List.map (fun kt => corev1.TypeName (snd kt))
                          (map_to_list (corev1.ParameterTypes caveat))) /\
    length (Main.Caveat_Parameters out) = size (corev1.ParameterTypes caveat).
Proof.
  assert (Hout : exists out, Main.mapCaveat caveat order = Ok out /\
                             Main.Caveat_Name out = corev1.CaveatDefinition_Name caveat).
  { unfold Main.mapCaveat.
    destruct (Main_getMetadataComments_ok _ Hdoc) as [comment ->]. cbn [bind].
    eexists. split; reflexivity. }
  destruct Hout as (out & Hout & Hname).
  exists out. split; [exact Hout |]. split; [exact Hname |].
  rewrite (Main_mapCaveat_parameters caveat order out Hout).
  split.
  - apply Permutation_map, Horder.
  - rewrite length_map, (Permutation_length Horder). apply length_map_to_list.
Qed.

Lemma Main_mapCaveat_lists_the_type_names_witness :
  let order := rev (map_to_list (corev1.ParameterTypes has_access)) in
  exists out,
    Main.mapCaveat has_access order = Ok out /\
    Main.Caveat_Name out = "has_access" /\
    Permutation (Main.Caveat_Parameters out)
                (List.map (fun kt => corev1.TypeName (snd kt))
                          (map_to_list (corev1.ParameterTypes has_access))) /\
    length (Main.Caveat_Parameters out) = size (corev1.ParameterTypes has_access).
Proof.
  intros order.
  apply (Main_mapCaveat_lists_the_type_names has_access order); [| reflexivity].
  apply Permutation_sym, Permutation_rev.
Defined.

(** ** The two extractors on plain text *)

(** X14.  On a documentation comment whose text holds no slash and no
    star followed by a space, the extractors of the two files agree:
    both return the text trimmed, nothing else taken from it. *)
Theorem getMetadataComments_agree_on_plain_text
    (p1 p2 : byte) (text : string)
    (Hplain : plain text = true) :
  Main.getMetadataComments (docComment p1 p2 text) = Ok (TrimSpace text) /\
  MapSchema.getMetadataComments (docComment p1 p2 text) = Ok (TrimSpace text).
Proof.
  rewrite Main_getMetadataComments_docComment, MapSchema_getMetadataComments_docComment.
  rewrite (ReplaceAllString_plain text Hplain), TrimSpace_app_LF.
  split; reflexivity.
Qed.

Lemma getMetadataComments_agree_on_plain_text_witness :
  plain " Allows a user to view and edit (2*3) " = true /\
  Main.getMetadataComments (docComment x0a x26 " Allows a user to view and edit (2*3) ")
  = Ok (TrimSpace " Allows a user to view and edit (2*3) ") /\
  MapSchema.getMetadataComments (docComment x0a x26 " Allows a user to view and edit (2*3) ")
  = Ok (TrimSpace " Allows a user to view and edit (2*3) ").
Proof.
  split; [reflexivity |].
  apply (getMetadataComments_agree_on_plain_text x0a x26). reflexivity.
Defined.
